(** * procyclingstats: the homepage scraper [TodayRaces]

    A shallow embedding of [procyclingstats/today_races_scraper.py] and the
    properties of its extraction operations.

    Layout:
    - [Py]: the Python values and builtins the scraper relies on (exceptions,
      [str] methods, list indexing, [for] loops);
    - [Dom]: the parsed document the scraper consumes (nodes, attributes,
      text, CSS selection, forward sibling);
    - [TodayRaces]: the methods of the class, one definition per method;
    - [Spec]: the same operations restated declaratively;
    - [Examples], [EdgeCases]: the documents the examples evaluate the
      methods on;
    - [Harness]: the line [print_data] writes and the results and exit code
      of [main] in [test_all_scrapers.py];
    - [TextNodes]: what a stripped string is, on the characters of UTF-8
      text;
    - [Raw]: the documents in which an attribute may have no value, and
      [finished_races] and [yesterday_races] on them;
    - the lemmas on loops, loop bodies and methods, and the properties of
      each extraction, of the calendar collector and of the test script. *)

From stdpp Require Import base option list sorting strings gmap.

Local Open Scope string_scope.
Local Open Scope list_scope.
Set Warnings "-register-all".

(* ===================================================================== *)
(** ** Python values and builtins *)
(* ===================================================================== *)

Module Py.

(** The exceptions the modelled operations can raise. *)
Inductive exn : Type :=
  | AttributeError   (* a method called on [None] *)
  | IndexError       (* [l[i]] with [i] out of range *)
  | TypeError        (* [sub in None] *)
  | ConnectionError. (* raised by the HTTP session *)

(** A computation that returns a value or raises. *)
Inductive exc (A : Type) : Type :=
  | Raise (e : exn)
  | Return (a : A).
Global Arguments Raise {A} e.
Global Arguments Return {A} a.

Global Instance exc_ret : MRet exc := fun _ a => Return a.
Global Instance exc_bind : MBind exc := fun _ _ f m =>
  match m with
  | Raise e => Raise e
  | Return a => f a
  end.

(** [for x in xs: body], where the loop state [S] collects the variables
    the body assigns.  [continue] is returning the state unchanged. *)
Fixpoint for_in {A S : Type} (xs : list A) (body : A → S → exc S) (s : S)
  : exc S :=
  match xs with
  | [] => Return s
  | x :: xs' => s' ← body x s; for_in xs' body s'
  end.

(** [m > n] on integers, as the source writes its length tests. *)
Global Instance gt_dec : RelDecision gt := λ m n, decide (n < m)%nat.

(** [l[i]] for a non-negative literal index. *)
Definition getitem {A : Type} (l : list A) (i : nat) : exc A :=
  match l !! i with
  | Some x => Return x
  | None => Raise IndexError
  end.

(** [s.startswith(p)]. *)
Fixpoint startswith (s p : string) : bool :=
  match p, s with
  | "", _ => true
  | String _ _, "" => false
  | String a p', String b s' => Ascii.eqb a b && startswith s' p'
  end.

(** [sub in s] on strings. *)
Fixpoint contains (sub s : string) : bool :=
  startswith s sub
  || match s with
     | "" => false
     | String _ s' => contains sub s'
     end.

(** [s[1:]]. *)
Definition tail (s : string) : string :=
  match s with
  | "" => ""
  | String _ s' => s'
  end.

(** Strings are sequences of bytes here, the UTF-8 encoding of Python's
    strings.  A character is a byte that does not continue one, together
    with the continuation bytes (those of the form 10xxxxxx) that follow
    it. *)
Definition is_continuation (c : Ascii.ascii) : bool :=
  let n := Ascii.nat_of_ascii c in
  bool_decide (128 ≤ n < 192)%nat.

Definition continues (s : string) : bool :=
  match s with
  | "" => false
  | String c _ => is_continuation c
  end.

(** The characters of a string, and ["".join(chars)]. *)
Fixpoint chars (s : string) : list string :=
  match s with
  | "" => []
  | String c s' =>
      if continues s'
      then match chars s' with
           | ch :: rest => String c ch :: rest
           | [] => [String c ""]
           end
      else String c "" :: chars s'
  end.

Fixpoint join (cs : list string) : string :=
  match cs with
  | [] => ""
  | ch :: cs' => ch +:+ join cs'
  end.

(** The characters [str.strip()] removes: those of the ASCII range, U+0009
    to U+000D, U+001C to U+001F and U+0020, and beyond it U+0085, U+00A0,
    U+1680, U+2000 to U+200A, U+2028, U+2029, U+202F, U+205F and U+3000, in
    their encoding. *)
Definition isspace (c : Ascii.ascii) : bool :=
  let n := Ascii.nat_of_ascii c in
  bool_decide (9 ≤ n ≤ 13)%nat || bool_decide (28 ≤ n ≤ 32)%nat.

Definition of_bytes (bytes : list nat) : string :=
  foldr (λ n s, String (Ascii.ascii_of_nat n) s) "" bytes.

Definition space_chars : list string :=
  of_bytes <$>
    [ [194; 133]; [194; 160]; [225; 154; 128];
      [226; 128; 128]; [226; 128; 129]; [226; 128; 130]; [226; 128; 131];
      [226; 128; 132]; [226; 128; 133]; [226; 128; 134]; [226; 128; 135];
      [226; 128; 136]; [226; 128; 137]; [226; 128; 138];
      [226; 128; 168]; [226; 128; 169]; [226; 128; 175];
      [226; 129; 159]; [227; 128; 128] ]%nat.

Definition is_space (ch : string) : bool :=
  match ch with
  | String c "" => isspace c
  | _ => bool_decide (ch ∈ space_chars)
  end.

(** [s.strip()]: the characters of [s] without the white space at either
    end. *)
Fixpoint drop_spaces (cs : list string) : list string :=
  match cs with
  | [] => []
  | ch :: cs' => if is_space ch then drop_spaces cs' else cs
  end.

Definition trim (cs : list string) : list string :=
  reverse (drop_spaces (reverse (drop_spaces cs))).

Definition strip (s : string) : string := join (trim (chars s)).

(** The truth value of a string: [if href]. *)
Definition truthy (s : string) : bool :=
  match s with
  | "" => false
  | _ => true
  end.

(** [sorted(xs)] on strings: ascending in the lexicographic order of the
    characters. *)
Definition sorted (xs : list string) : list string :=
  merge_sort String.le xs.

End Py.

Import Py.

(* ===================================================================== *)
(** ** The parsed document *)
(* ===================================================================== *)

Module Dom.

(** Modelled from the spec: the Document Provider of section 6
    ([selectolax]'s [HTMLParser] and [Node], reached through
    [Scraper.html], none of which is part of the scraper's file).  A node
    has a tag, an attribute mapping from strings to strings, children,
    text, and a forward sibling.

    These are the documents in which every attribute has a value.  The
    library reports an attribute written without a value, or with an empty
    one, as [None]; the module [Raw] below has those documents, and the
    methods that behave differently on them.  Documents are taken in
    no-quirks mode (the page starts with a DOCTYPE, as the pages of the site
    do): class names are compared exactly. *)
Inductive node : Type :=
  | Elem (tag : string) (attrs : gmap string string) (children : list node)
  | Text (content : string)
  | Comment (content : string).

Definition tag (n : node) : string :=
  match n with
  | Elem t _ _ => t
  | Text _ => "-text"
  | Comment _ => "-comment"
  end.

Definition attributes (n : node) : gmap string string :=
  match n with
  | Elem _ a _ => a
  | _ => ∅
  end.

Definition children (n : node) : list node :=
  match n with
  | Elem _ _ c => c
  | _ => []
  end.

(** A node in its place: the node and the siblings that follow it. *)
Record loc : Type := Loc { here : node; after : list node }.

(** [n.next]. *)
Definition next (l : loc) : option loc :=
  match after l with
  | [] => None
  | n :: rest => Some (Loc n rest)
  end.

(** The nodes of a sibling chain with all their descendants, in document
    order. *)
Fixpoint locs_tree (n : node) (rest : list node) : list loc :=
  Loc n rest ::
  match n with
  | Elem _ _ c =>
      (fix forest (ns : list node) : list loc :=
         match ns with
         | [] => []
         | m :: ms => locs_tree m ms ++ forest ms
         end) c
  | _ => []
  end.

Fixpoint locs_forest (ns : list node) : list loc :=
  match ns with
  | [] => []
  | n :: rest => locs_tree n rest ++ locs_forest rest
  end.

Definition subtree (l : loc) : list loc := locs_tree (here l) (after l).
Definition descendants (l : loc) : list loc := locs_forest (children (here l)).

Fixpoint chain (ns : list node) : list loc :=
  match ns with
  | [] => []
  | n :: rest => Loc n rest :: chain rest
  end.

Definition child_locs (l : loc) : list loc := chain (children (here l)).

(** [n.text(deep=True, separator='', strip=...)]: the text nodes below
    [n] in document order, each stripped on its own when [strip] is set. *)
Fixpoint text_of (strip_parts : bool) (n : node) : string :=
  match n with
  | Text s => if strip_parts then strip s else s
  | Comment _ => ""
  | Elem _ _ c =>
      (fix parts (ns : list node) : string :=
         match ns with
         | [] => ""
         | m :: ms => text_of strip_parts m +:+ parts ms
         end) c
  end.

Definition text (l : loc) (strip_parts : bool) : string :=
  text_of strip_parts (here l).

(** *** Selectors *)

(** A compound selector: [tag.class1.class2[attr^='prefix']]. *)
Record compound : Type := Compound {
  sel_tag : string;
  sel_classes : list string;
  sel_attr_prefix : option (string * string)
}.

Inductive combinator : Type := Descendant | Child.

(** [c0 comb1 c1 comb2 c2 ...]. *)
Record selector : Type := Selector {
  sel_first : compound;
  sel_rest : list (combinator * compound)
}.

Definition has_class (n : node) (c : string) : bool :=
  match attributes n !! "class" with
  | Some v => bool_decide (c ∈ String.words v)
  | None => false
  end.

(** The library compares the value of an attribute with the text of the
    selector without regard to the case of the letters A to Z. *)
Definition fold_case_char (c : Ascii.ascii) : Ascii.ascii :=
  let n := Ascii.nat_of_ascii c in
  if bool_decide (65 ≤ n ≤ 90)%nat then Ascii.ascii_of_nat (n + 32) else c.

Fixpoint fold_case (s : string) : string :=
  match s with
  | "" => ""
  | String c s' => String (fold_case_char c) (fold_case s')
  end.

Definition has_attr_prefix (n : node) (ap : option (string * string)) : bool :=
  match ap with
  | None => true
  | Some (a, p) =>
      match attributes n !! a with
      | Some v => startswith (fold_case v) (fold_case p)
      | None => false
      end
  end.

Definition matches (c : compound) (l : loc) : bool :=
  match here l with
  | Elem t _ _ =>
      String.eqb t (sel_tag c)
      && forallb (has_class (here l)) (sel_classes c)
      && has_attr_prefix (here l) (sel_attr_prefix c)
  | _ => false
  end.

Definition step (found : list loc) (cc : combinator * compound) : list loc :=
  l ← found;
  filter (λ m, matches cc.2 m)
         (match cc.1 with
          | Descendant => descendants l
          | Child => child_locs l
          end).

(** [n.css(selector)]: the selector is matched from left to right inside
    the subtree of [n]. *)
Definition css (l : loc) (s : selector) : list loc :=
  foldl step (filter (λ m, matches (sel_first s) m) (subtree l)) (sel_rest s).

(** [n.css_first(selector)]: [None] when nothing matches. *)
Definition css_first (l : loc) (s : selector) : option loc :=
  head (css l s).

(** A document is its root element. *)
Definition document : Type := node.
Definition root (d : document) : loc := Loc d [].

End Dom.

Import Dom.

(** Python variables that hold a node or [None], and the methods the scraper
    calls on them.  A method called on [None] raises [AttributeError]. *)
Module Node.

Definition t : Type := option loc.

(** [if node] / [if not node]. *)
Definition truth (n : t) : bool :=
  match n with
  | Some _ => true
  | None => false
  end.

Definition method {A : Type} (n : t) (f : loc → A) : exc A :=
  match n with
  | Some l => Return (f l)
  | None => Raise AttributeError
  end.

(** [n.attributes.get(key, dflt)]. *)
Definition attributes_get (n : t) (key dflt : string) : exc string :=
  method n (λ l, default dflt (attributes (here l) !! key)).

(** [n.text(strip=True)]. *)
Definition text_strip (n : t) : exc string :=
  method n (λ l, text l true).

(** [n.css_first(selector)]. *)
Definition css_first (n : t) (s : selector) : exc t :=
  method n (λ l, Dom.css_first l s).

End Node.

(* ===================================================================== *)
(** ** The scraper *)
(* ===================================================================== *)

(** The dictionaries the methods build, one record per shape. *)
Module LiveRace.
Record t : Type := Make { url : string; name : string; status : string; togo : string }.
End LiveRace.

Module NextRace.
Record t : Type :=
  Make { url : string; name : string; eta : string; category : string; class : string }.
End NextRace.

Module Result.
Record t : Type := Make { url : string; name : string; category : string }.
End Result.

Module TodayRaces.

(** The selectors of the class, as written in the source. *)
Definition simple (tg : string) : selector := Selector (Compound tg [] None) [].
Definition classed (tg cl : string) : selector := Selector (Compound tg [cl] None) [].

(** ["ul.hp3-livestats li.live"] *)
Definition sel_live : selector :=
  Selector (Compound "ul" ["hp3-livestats"] None)
           [(Descendant, Compound "li" ["live"] None)].
(** ["table.next-to-finish tbody"] *)
Definition sel_next_table : selector :=
  Selector (Compound "table" ["next-to-finish"] None)
           [(Descendant, Compound "tbody" [] None)].
(** ["div > a[href^='race/']"] *)
Definition sel_race_link : selector :=
  Selector (Compound "div" [] None)
           [(Child, Compound "a" [] (Some ("href", "race/")))].
Definition sel_a : selector := simple "a".
Definition sel_b : selector := simple "b".
Definition sel_tr : selector := simple "tr".
Definition sel_td : selector := simple "td".
Definition sel_title : selector := classed "span" "title".
Definition sel_togo : selector := classed "div" "togo".
Definition sel_h3 : selector := classed "h3" "black-info-title".
Definition sel_li_race : selector := classed "li" "race".
Definition sel_category : selector := classed "span" "category".
Definition sel_content : selector := classed "div" "content".
Definition sel_page_content : selector := classed "div" "page-content".

(** *** [live_races] *)

(** The body of the loop over [live_list]; [races] is the list built so
    far. *)
Definition live_races_body (li : loc) (races : list LiveRace.t)
  : exc (list LiveRace.t) :=
  let a_tag := css_first li sel_a in
  if negb (Node.truth a_tag) then Return races else
  href ← Node.attributes_get a_tag "href" "";
  let title_span := css_first li sel_title in
  name ← (if Node.truth title_span then Node.text_strip title_span
          else Return "");
  let togo_div := css_first li sel_togo in
  togo ← (if Node.truth togo_div then Node.text_strip togo_div
          else Return "");
  Return (races ++ [LiveRace.Make href name "live" togo]).

Definition live_races (html : document) : exc (list LiveRace.t) :=
  let live_list := css (root html) sel_live in
  for_in live_list live_races_body [].

(** *** [next_to_finish] *)

Definition next_to_finish_body (row : loc) (races : list NextRace.t)
  : exc (list NextRace.t) :=
  let cells := css row sel_td in
  if bool_decide (length cells < 4) then Return races else
  eta ← (if bool_decide (length cells > 1)
         then c ← getitem cells 1; Return (text c true)
         else Return "");
  a_tag ← (if bool_decide (length cells > 3)
           then c ← getitem cells 3; Return (css_first c sel_a)
           else Return None);
  if negb (Node.truth a_tag) then Return races else
  href ← Node.attributes_get a_tag "href" "";
  name ← Node.text_strip a_tag;
  category ← (if bool_decide (length cells > 4)
              then c ← getitem cells 4; Return (text c true)
              else Return "");
  race_class ← (if bool_decide (length cells > 5)
                then c ← getitem cells 5; Return (text c true)
                else Return "");
  Return (races ++ [NextRace.Make href name eta category race_class]).

Definition next_to_finish (html : document) : exc (list NextRace.t) :=
  let races := [] in
  let table := css_first (root html) sel_next_table in
  if negb (Node.truth table) then Return races else
  rows ← Node.method table (λ t, css t sel_tr);
  for_in rows next_to_finish_body races.

(** *** [finished_races] *)

(** The [while sibling] loop, entered with [sibling] at node [n] followed
    by [rest]; [sibling.next] is the head of [rest].  The result is the
    value of [results_section] when the loop is left. *)
Fixpoint finished_races_while (n : node) (rest : list node) : Node.t :=
  if String.eqb (tag n) "ul"
     && contains "hp2-results" (default "" (attributes n !! "class"))
  then Some (Loc n rest)
  else match rest with
       | [] => None
       | m :: rest' => finished_races_while m rest'
       end.

(** The loop over the headings, left by [break] at the first heading
    whose text has the label. *)
Fixpoint finished_races_section (h3s : list loc) : Node.t :=
  match h3s with
  | [] => None
  | h3 :: h3s' =>
      if contains "Results today" (text h3 false)
      then match next h3 with
           | Some sibling => finished_races_while (here sibling) (after sibling)
           | None => None
           end
      else finished_races_section h3s'
  end.

Definition finished_races_body (li : loc) (races : list Result.t)
  : exc (list Result.t) :=
  let race_link := css_first li sel_race_link in
  if negb (Node.truth race_link) then Return races else
  href ← Node.attributes_get race_link "href" "";
  name_b ← Node.css_first race_link sel_b;
  name ← (if Node.truth name_b then Node.text_strip name_b else Return "");
  let category_span := css_first li sel_category in
  category ← (if Node.truth category_span then Node.text_strip category_span
              else Return "");
  Return (races ++ [Result.Make href name category]).

Definition finished_races (html : document) : exc (list Result.t) :=
  let races := [] in
  let results_section := finished_races_section (css (root html) sel_h3) in
  if negb (Node.truth results_section) then Return races else
  items ← Node.method results_section (λ s, css s sel_li_race);
  for_in items finished_races_body races.

(** *** [yesterday_races] *)

Fixpoint yesterday_races_while (n : node) (rest : list node) : Node.t :=
  if String.eqb (tag n) "ul"
     && contains "hp2-results" (default "" (attributes n !! "class"))
  then Some (Loc n rest)
  else match rest with
       | [] => None
       | m :: rest' => yesterday_races_while m rest'
       end.

Fixpoint yesterday_races_section (h3s : list loc) : Node.t :=
  match h3s with
  | [] => None
  | h3 :: h3s' =>
      if contains "Results yesterday" (text h3 false)
      then match next h3 with
           | Some sibling => yesterday_races_while (here sibling) (after sibling)
           | None => None
           end
      else yesterday_races_section h3s'
  end.

Definition yesterday_races_body (li : loc) (races : list Result.t)
  : exc (list Result.t) :=
  let race_link := css_first li sel_race_link in
  if negb (Node.truth race_link) then Return races else
  href ← Node.attributes_get race_link "href" "";
  name_b ← Node.css_first race_link sel_b;
  name ← (if Node.truth name_b then Node.text_strip name_b else Return "");
  let category_span := css_first li sel_category in
  category ← (if Node.truth category_span then Node.text_strip category_span
              else Return "");
  Return (races ++ [Result.Make href name category]).

Definition yesterday_races (html : document) : exc (list Result.t) :=
  let races := [] in
  let results_section := yesterday_races_section (css (root html) sel_h3) in
  if negb (Node.truth results_section) then Return races else
  items ← Node.method results_section (λ s, css s sel_li_race);
  for_in items yesterday_races_body races.

(** *** [race_urls_for_date] *)

(** The body of the loop over the anchors; [race_urls] is the set built
    so far.  [a.attributes.get("href")] is [None] without the attribute. *)
Definition race_urls_body (a : loc) (race_urls : gset string)
  : exc (gset string) :=
  match attributes (here a) !! "href" with
  | Some href =>
      if truthy href && (startswith href "/race/" || startswith href "race/")
      then
        let href := if startswith href "/race/" then tail href else href in
        Return ({[ href ]} ∪ race_urls)
      else Return race_urls
  | None => Return race_urls
  end.

(** What the method does with the parsed response. *)
Definition race_urls_of (html : document) : exc (list string) :=
  let race_urls : gset string := ∅ in
  let content_div := css_first (root html) sel_content in
  race_urls ←
    (if Node.truth content_div then
       page_content_div ← Node.css_first content_div sel_page_content;
       if Node.truth page_content_div then
         anchors ← Node.method page_content_div (λ d, css d sel_a);
         for_in anchors race_urls_body race_urls
       else Return race_urls
     else Return race_urls);
  Return (sorted (elements race_urls)).

Section Session.

(** What the method takes from [Scraper] and the HTTP session:
    [BASE_URL], [session.get(url).text] (which may raise), and the
    parser. *)
Variable BASE_URL : string.
Variable session_get : string → exc string.
Variable HTMLParser : string → document.

Definition race_urls_for_date (date : string) : exc (list string) :=
  let url := "races.php?p=uci&s=today&date=" +:+ date
             +:+ "&nation=&cat=&filter=Filter" in
  resp_text ← session_get (BASE_URL +:+ url);
  let html := HTMLParser resp_text in
  race_urls_of html.

End Session.

End TodayRaces.

Import TodayRaces.

(* ===================================================================== *)
(** ** The operations restated *)
(* ===================================================================== *)

(** Each extraction restated as a function from an item to the record it
    contributes, if any, in the words of the specification.  The theorems
    below relate them to the loops of the source. *)
Module Spec.

(** The [href] of an anchor, the empty string without the attribute. *)
Definition href_of (a : loc) : string :=
  default "" (attributes (here a) !! "href").

(** The stripped text of an optional element, the empty string when it is
    absent. *)
Definition text_or_empty (n : option loc) : string :=
  from_option (λ l, text l true) "" n.

(** Section 4.1: the record of a live item. *)
Definition live_record (li : loc) : option LiveRace.t :=
  a ← css_first li sel_a;
  Some (LiveRace.Make (href_of a)
                      (text_or_empty (css_first li sel_title))
                      "live"
                      (text_or_empty (css_first li sel_togo))).

(** Section 4.2: the rows of the table body and the record of a row.
    [cells !! i] is the cell of index [i], counted from 0. *)
Definition next_rows (html : document) : list loc :=
  from_option (λ t, css t sel_tr) [] (css_first (root html) sel_next_table).

Definition next_record (row : loc) : option NextRace.t :=
  let cells := css row sel_td in
  if decide (length cells < 4) then None else
  c1 ← cells !! 1;
  c3 ← cells !! 3;
  a ← css_first c3 sel_a;
  Some (NextRace.Make (href_of a) (text a true) (text c1 true)
                      (text_or_empty (cells !! 4))
                      (text_or_empty (cells !! 5))).

(** Section 4.3: the results-section locator. *)
Definition has_label (label : string) (h3 : loc) : Prop :=
  contains label (text h3 false) = true.

Definition is_results_list (s : node) : Prop :=
  tag s = "ul"
  ∧ contains "hp2-results" (default "" (attributes s !! "class")) = true.

Global Instance has_label_dec label h3 : Decision (has_label label h3).
Proof. unfold has_label. apply _. Defined.
Global Instance is_results_list_dec s : Decision (is_results_list s).
Proof. unfold is_results_list. apply _. Defined.

(** The headings of the page, in document order. *)
Definition headings (html : document) : list loc := css (root html) sel_h3.

(** The first list of a sibling chain. *)
Definition first_list (siblings : list node) : option loc :=
  snd <$> list_find (λ s, is_results_list (here s)) (chain siblings).

(** The first heading with the label, then the first list among the
    siblings that follow it. *)
Definition locate (label : string) (html : document) : option loc :=
  h3 ← snd <$> list_find (has_label label) (headings html);
  first_list (after h3).

(** Section 4.4: the record of a result item and the one routine for
    both labels. *)
Definition result_record (li : loc) : option Result.t :=
  a ← css_first li sel_race_link;
  Some (Result.Make (href_of a)
                    (text_or_empty (css_first a sel_b))
                    (text_or_empty (css_first li sel_category))).

Definition results_by_label (label : string) (html : document)
  : exc (list Result.t) :=
  Return (omap result_record
               (from_option (λ s, css s sel_li_race) [] (locate label html))).

(** The category as the specification words it: taken from a span with
    the category class among the siblings of the anchor, that is among
    the other children of the [div] the anchor is a child of. *)
Definition is_race_anchor (c : loc) : bool :=
  matches (Compound "a" [] (Some ("href", "race/"))) c.

Definition is_category_span (c : loc) : bool :=
  matches (Compound "span" ["category"] None) c.

Fixpoint without_first (p : loc → bool) (cs : list loc) : list loc :=
  match cs with
  | [] => []
  | c :: cs' => if p c then cs' else c :: without_first p cs'
  end.

Definition anchor_siblings (li : loc) : list loc :=
  let divs := filter (λ d, matches (Compound "div" [] None) d) (subtree li) in
  match filter (λ d, existsb is_race_anchor (child_locs d)) divs with
  | [] => []
  | d :: _ => without_first is_race_anchor (child_locs d)
  end.

Definition sibling_category (li : loc) : string :=
  text_or_empty (head (filter (λ c, is_category_span c) (anchor_siblings li))).

(** The category as the source takes it: from the first span with the
    category class anywhere in the item, in document order. *)
Definition item_category (li : loc) : string :=
  text_or_empty (head (filter (λ c, is_category_span c) (subtree li))).

(** Section 4.5: the hrefs the collector admits, normalised. *)
Definition admitted (href : string) : bool :=
  startswith href "/race/" || startswith href "race/".

Definition normalise (href : string) : string :=
  if startswith href "/race/" then tail href else href.

Definition calendar_anchors (html : document) : list loc :=
  from_option (λ d, css d sel_a) []
    (css_first (root html) sel_content ≫= λ c, css_first c sel_page_content).

Definition urls_of_anchors (anchors : list loc) : list string :=
  normalise <$> filter (λ h, admitted h = true)
                       (omap (λ a, attributes (here a) !! "href") anchors).

Definition calendar_urls (html : document) : list string :=
  urls_of_anchors (calendar_anchors html).

End Spec.

(* ===================================================================== *)
(** ** Documents used in the examples *)
(* ===================================================================== *)

Module Examples.

Definition el (tg cls : string) (cs : list node) : node :=
  Elem tg {[ "class" := cls ]} cs.
Definition a_href (href : string) (cs : list node) : node :=
  Elem "a" {[ "href" := href ]} cs.
Definition td (cs : list node) : node := Elem "td" ∅ cs.
Definition tr (cs : list node) : node := Elem "tr" ∅ cs.
Definition page (body : list node) : document :=
  Elem "html" ∅ [Elem "head" ∅ []; Elem "body" ∅ body].

(** One live item. *)
Definition live_item : node :=
  el "li" "live"
     [a_href "race/x/2026/stage-2/live" [el "span" "title" [Text "Stage 2"]];
      el "div" "togo" [Text "12km"]].
Definition live_page : document :=
  page [el "ul" "hp3-livestats" [live_item]].

(** A page with neither the live list nor the table nor a heading. *)
Definition empty_page : document := page [Elem "p" ∅ [Text "Nothing today"]].

(** Rows of the next-to-finish table: three cells; four cells without a
    link; six cells; four cells with an anchor that has no [href]. *)
Definition short_row : node :=
  tr [td [Text "1"]; td [Text "15:10"]; td [a_href "race/w/2026" [Text "W"]]].
Definition unlinked_row : node :=
  tr [td []; td [Text "15:20"]; td []; td [Text "No link"]].
Definition full_row : node :=
  tr [td []; td [Text " 16:05 "]; td [];
      td [a_href "race/y/2026/stage-1" [Text "Race Y"]];
      td [Text "ME"]; td [Text "2.UWT"]].
Definition bare_row : node :=
  tr [td []; td [Text "16:30"]; td []; td [Elem "a" ∅ [Text "Race Z"]]].
Definition next_page : document :=
  page [el "table" "next-to-finish"
           [Elem "tbody" ∅ [short_row; unlinked_row; full_row; bare_row]]].

(** Result lists. *)
Definition result_item (href name cat : string) : node :=
  el "li" "race"
     [Elem "div" ∅ [a_href href [Elem "b" ∅ [Text name]];
                    el "span" "category" [Text cat]]].
Definition heading (label : string) : node :=
  el "h3" "black-info-title" [Text label].
Definition results_page : document :=
  page [heading "Results today"; Text " ";
        Elem "p" ∅ [Text "updated"];
        el "ul" "list hp2-results" [result_item "race/t/2026/stage-1" "Tour T" "ME"];
        heading "Results yesterday";
        el "ul" "hp2-results" [result_item "race/u/2026" "Race U" "WE"]].


(** One heading that carries both labels. *)
Definition shared_page : document :=
  page [heading "Results today (Results yesterday below)";
        el "ul" "hp2-results" [result_item "race/u/2026" "Race U" "WE"]].

(** A result item whose category span is not a sibling of the anchor. *)
Definition deep_item : node :=
  el "li" "race"
     [Elem "div" ∅ [a_href "race/x/2026" [Elem "b" ∅ [Text "Race X"]]];
      Elem "p" ∅ [Elem "em" ∅ [el "span" "category" [Text "1.UWT"]]]].
Definition deep_page : document :=
  page [heading "Results today"; el "ul" "hp2-results" [deep_item]].

(** The calendar response: the same race with and without the leading
    slash, out of order, among other links. *)
Definition calendar_page : document :=
  page [el "div" "content"
           [el "div" "page-content"
               [a_href "race/b/2026" [Text "B"];
                a_href "/race/a/2026" [Text "A"];
                a_href "rider/someone" [Text "R"];
                Elem "a" ∅ [Text "no href"];
                a_href "race/a/2026" [Text "A again"]]];
        a_href "race/outside/2026" [Text "outside the content"]].

Definition session_ok (body : string) (url : string) : exc string :=
  Return body.
Definition session_down (url : string) : exc string :=
  Raise ConnectionError.

End Examples.

(* ===================================================================== *)
(** ** The test script *)
(* ===================================================================== *)

(** [test_all_scrapers.py]: the line [print_data] writes, and the results
    and exit code of [main].  What [test_scraper] returns is an input of
    [main] here: it depends on [Scraper], on reflection over the scraper
    object and on the clock.  Of the output only the line of [print_data]
    is modelled. *)
Module Harness.

(** [len(s)]: the number of characters, each a byte that does not continue
    one. *)
Fixpoint len (s : string) : nat :=
  match s with
  | "" => 0
  | String c s' => if is_continuation c then len s' else S (len s')
  end.

(** [s[:n]] for [n] from 0 up: the first [n] characters. *)
Fixpoint take_chars (n : nat) (s : string) : string :=
  match s with
  | "" => ""
  | String c s' =>
      if is_continuation c then String c (take_chars n s')
      else match n with
           | 0 => ""
           | S n' => String c (take_chars n' s')
           end
  end.

(** [s[:k]]: a negative [k] counts from the end. *)
Definition slice_to (s : string) (k : Z) : string :=
  if bool_decide (k < 0)%Z
  then take_chars (Z.to_nat (Z.of_nat (len s) + k)) s
  else take_chars (Z.to_nat k) s.

(** [sum(xs)] on integers. *)
Definition sum (xs : list Z) : Z := foldl Z.add 0%Z xs.

Module Colors.
Definition ESC : string := String (Ascii.ascii_of_nat 27) "".
Definition BLUE : string := ESC +:+ "[94m".
Definition ENDC : string := ESC +:+ "[0m".
End Colors.

(** Lines 73 to 75 of [print_data]: the value as it is shown, where
    [value_str] is [str(value)]. *)
Definition print_data_value (value_str : string) (max_length : Z) : string :=
  if bool_decide (Z.of_nat (len value_str) > max_length)%Z
  then slice_to value_str max_length +:+ "..."
  else value_str.

(** The line [print_data] hands to [print]. *)
Definition print_data (key value_str : string) (max_length : Z) : string :=
  let value_str := print_data_value value_str max_length in
  "  " +:+ Colors.BLUE +:+ key +:+ ":" +:+ Colors.ENDC +:+ " " +:+ value_str.

Section Results.

(** The dictionary [Scraper.parse] returns and a difference of clock
    readings, neither of which the script looks into. *)
Variable Parsed : Type.
Variable Seconds : Type.

(** The ["data"] of a result: [None], parsed data, or a list of URLs. *)
Inductive data : Type :=
  | NoData
  | ParsedData (d : Parsed)
  | Urls (urls : list string).

(** The dictionary [test_scraper] returns and [main] builds for the dated
    query.  ["time"] is the integer [0] or a number of seconds. *)
Record TestResult : Type := {
  name : string;
  url : string;
  success : bool;
  error : option string;
  result_data : data;
  time : Z + Seconds
}.

(** Lines 291 to 293 and 312 to 317 of [main]. *)
Definition successful (results : list TestResult) : Z :=
  sum ((λ _, 1%Z) <$> filter (λ r, success r = true) results).

Definition failed (results : list TestResult) : Z :=
  (Z.of_nat (length results) - successful results)%Z.

Definition exit_code (results : list TestResult) : Z :=
  if bool_decide (failed results > 0)%Z then 1%Z else 0%Z.

(** [str(e)], the constructor [TodayRaces()] (which may raise), and what
    [race_urls_for_date] takes from the session. *)
Variable str : exn → string.
Variable TodayRaces_new : exc unit.
Variable BASE_URL : string.
Variable session_get : string → exc string.
Variable HTMLParser : string → document.

Definition test_date : string := "2026-02-06".

(** Lines 263 to 286: the [try] block of the dated query and the entry
    appended in either case. *)
Definition dated_query : exc (list string) :=
  today_scraper ← TodayRaces_new;
  race_urls_for_date BASE_URL session_get HTMLParser test_date.

Definition dated_result : TestResult :=
  match dated_query with
  | Return urls =>
      {| name := "TodayRaces Scraper (date=" +:+ test_date +:+ ")";
         url := "races.php?p=uci&s=today&date=" +:+ test_date;
         success := true;
         error := None;
         result_data := Urls urls;
         time := inl 0%Z |}
  | Raise e =>
      {| name := "TodayRaces Scraper (date=" +:+ test_date +:+ ")";
         url := "races.php?p=uci&s=today&date=" +:+ test_date;
         success := false;
         error := Some (str e);
         result_data := NoData;
         time := inl 0%Z |}
  end.

(** [main], given what [test_scraper] returned for the homepage: the list
    of results and the exit code. *)
Definition main_results (first : TestResult) : list TestResult :=
  let results := [] in
  let results := results ++ [first] in
  results ++ [dated_result].

Definition main (first : TestResult) : Z :=
  exit_code (main_results first).

End Results.

Global Arguments NoData {Parsed}.
Global Arguments ParsedData {Parsed} d.
Global Arguments Urls {Parsed} urls.
Global Arguments name {Parsed Seconds} _.
Global Arguments url {Parsed Seconds} _.
Global Arguments success {Parsed Seconds} _.
Global Arguments error {Parsed Seconds} _.
Global Arguments result_data {Parsed Seconds} _.
Global Arguments time {Parsed Seconds} _.
Global Arguments successful {Parsed Seconds} results.
Global Arguments failed {Parsed Seconds} results.
Global Arguments exit_code {Parsed Seconds} results.
Global Arguments dated_result {Parsed Seconds} str TodayRaces_new BASE_URL session_get HTMLParser.
Global Arguments main_results {Parsed Seconds} str TodayRaces_new BASE_URL session_get HTMLParser first.
Global Arguments main {Parsed Seconds} str TodayRaces_new BASE_URL session_get HTMLParser first.

End Harness.

(* ===================================================================== *)
(** ** Text and its white space *)
(* ===================================================================== *)

Module TextNodes.

(** A character: a byte that does not continue one, and continuation bytes
    after it. *)
Fixpoint all_continuation (s : string) : bool :=
  match s with
  | "" => true
  | String c s' => is_continuation c && all_continuation s'
  end.

Definition character (ch : string) : bool :=
  match ch with
  | "" => false
  | String c rest => negb (is_continuation c) && all_continuation rest
  end.

(** No white space at either end of a list of characters. *)
Definition trimmed (cs : list string) : Prop :=
  (∀ ch, head cs = Some ch → is_space ch = false)
  ∧ (∀ ch, last cs = Some ch → is_space ch = false).

(** A stripped string: [strip] leaves it as it is, and neither its first
    nor its last character is white space. *)
Definition stripped (s : string) : Prop :=
  strip s = s ∧ trimmed (chars s).

(** The text nodes of a document start on a character, as the text the
    parser decodes does. *)
Fixpoint utf8_text (n : node) : bool :=
  match n with
  | Text s => negb (continues s)
  | Comment _ => true
  | Elem _ _ c =>
      (fix all (ns : list node) : bool :=
         match ns with
         | [] => true
         | m :: ms => utf8_text m && all ms
         end) c
  end.

Definition utf8_loc (l : loc) : Prop :=
  utf8_text (here l) = true ∧ Forall (λ n, utf8_text n = true) (after l).

End TextNodes.

(* ===================================================================== *)
(** ** Documents with attributes without a value *)
(* ===================================================================== *)

(** The document as the library reports it: the value of an attribute that
    is written without a value ([<ul class>]) or with an empty one
    ([<ul class="">]) is [None].  [finished_races] and [yesterday_races] are
    given again on these documents, where the test of the sibling walk can
    raise; selectors and text see a node without its valueless attributes,
    which match no class and no prefix. *)
Module Raw.

Inductive node : Type :=
  | Elem (tag : string) (attrs : gmap string (option string))
         (children : list node)
  | Text (content : string)
  | Comment (content : string).

Definition tag (n : node) : string :=
  match n with
  | Elem t _ _ => t
  | Text _ => "-text"
  | Comment _ => "-comment"
  end.

Definition attributes (n : node) : gmap string (option string) :=
  match n with
  | Elem _ a _ => a
  | _ => ∅
  end.

Record loc : Type := Loc { here : node; after : list node }.

(** [n.next]. *)
Definition next (l : loc) : option loc :=
  match after l with
  | [] => None
  | n :: rest => Some (Loc n rest)
  end.

Fixpoint locs_tree (n : node) (rest : list node) : list loc :=
  Loc n rest ::
  match n with
  | Elem _ _ c =>
      (fix forest (ns : list node) : list loc :=
         match ns with
         | [] => []
         | m :: ms => locs_tree m ms ++ forest ms
         end) c
  | _ => []
  end.

Definition subtree (l : loc) : list loc := locs_tree (here l) (after l).
Definition root (d : node) : loc := Loc d [].

(** The node with the attributes that have a value, and back. *)
Fixpoint valued (n : node) : Dom.node :=
  match n with
  | Elem t a c =>
      Dom.Elem t (omap id a)
        ((fix nodes (ns : list node) : list Dom.node :=
            match ns with
            | [] => []
            | m :: ms => valued m :: nodes ms
            end) c)
  | Text s => Dom.Text s
  | Comment s => Dom.Comment s
  end.

Definition valued_loc (l : loc) : Dom.loc :=
  Dom.Loc (valued (here l)) (valued <$> after l).

Fixpoint embed (n : Dom.node) : node :=
  match n with
  | Dom.Elem t a c =>
      Elem t (Some <$> a)
        ((fix nodes (ns : list Dom.node) : list node :=
            match ns with
            | [] => []
            | m :: ms => embed m :: nodes ms
            end) c)
  | Dom.Text s => Text s
  | Dom.Comment s => Comment s
  end.

Definition embed_loc (l : Dom.loc) : loc :=
  Loc (embed (Dom.here l)) (embed <$> Dom.after l).

(** [n.css(selector)] for a selector of one compound. *)
Definition select (l : loc) (c : compound) : list loc :=
  filter (λ m, matches c (valued_loc m)) (subtree l).

(** [n.attributes.get(key, dflt)]: the value, which may be [None], and
    [dflt] only when the attribute is absent. *)
Definition attributes_get (n : node) (key dflt : string) : option string :=
  match attributes n !! key with
  | Some value => value
  | None => Some dflt
  end.

(** [sub in value]: [None] is not a container. *)
Definition str_in (sub : string) (value : option string) : exc bool :=
  match value with
  | Some s => Return (contains sub s)
  | None => Raise TypeError
  end.

(** [finished_races], lines 119 to 131 on these documents and lines 132
    to 146 as before. *)
Fixpoint finished_races_while (n : node) (rest : list node)
  : exc (option loc) :=
  is_list ← (if String.eqb (tag n) "ul"
             then str_in "hp2-results" (attributes_get n "class" "")
             else Return false);
  if is_list : bool then Return (Some (Loc n rest))
  else match rest with
       | [] => Return None
       | m :: rest' => finished_races_while m rest'
       end.

Fixpoint finished_races_section (h3s : list loc) : exc (option loc) :=
  match h3s with
  | [] => Return None
  | h3 :: h3s' =>
      if contains "Results today" (text (valued_loc h3) false)
      then match next h3 with
           | Some sibling => finished_races_while (here sibling) (after sibling)
           | None => Return None
           end
      else finished_races_section h3s'
  end.

Definition finished_races (html : node) : exc (list Result.t) :=
  let races := [] in
  results_section ←
    finished_races_section (select (root html) (sel_first sel_h3));
  match results_section with
  | None => Return races
  | Some section =>
      for_in (css (valued_loc section) sel_li_race) finished_races_body races
  end.

(** [yesterday_races], lines 155 to 167 and 168 to 182. *)
Fixpoint yesterday_races_while (n : node) (rest : list node)
  : exc (option loc) :=
  is_list ← (if String.eqb (tag n) "ul"
             then str_in "hp2-results" (attributes_get n "class" "")
             else Return false);
  if is_list : bool then Return (Some (Loc n rest))
  else match rest with
       | [] => Return None
       | m :: rest' => yesterday_races_while m rest'
       end.

Fixpoint yesterday_races_section (h3s : list loc) : exc (option loc) :=
  match h3s with
  | [] => Return None
  | h3 :: h3s' =>
      if contains "Results yesterday" (text (valued_loc h3) false)
      then match next h3 with
           | Some sibling =>
               yesterday_races_while (here sibling) (after sibling)
           | None => Return None
           end
      else yesterday_races_section h3s'
  end.

Definition yesterday_races (html : node) : exc (list Result.t) :=
  let races := [] in
  results_section ←
    yesterday_races_section (select (root html) (sel_first sel_h3));
  match results_section with
  | None => Return races
  | Some section =>
      for_in (css (valued_loc section) sel_li_race) yesterday_races_body races
  end.

(** [<h3 class="black-info-title">Results today</h3><ul class="">...</ul>]
    and the same under ["Results yesterday"]: the lists have an empty
    class attribute. *)
Definition classed (tg cl : string) (cs : list node) : node :=
  Elem tg {[ "class" := Some cl ]} cs.

Definition item : node :=
  classed "li" "race"
    [Elem "div" ∅
       [Elem "a" {[ "href" := Some "race/v/2026" ]} [Elem "b" ∅ [Text "Race V"]];
        classed "span" "category" [Text "ME"]]].

Definition valueless_class_page : node :=
  Elem "html" ∅
    [Elem "body" ∅
       [classed "h3" "black-info-title" [Text "Results today"];
        Elem "ul" {[ "class" := None ]} [item];
        classed "h3" "black-info-title" [Text "Results yesterday"];
        Elem "ul" {[ "class" := None ]} [item]]].

(** The same page with the class of the lists written out, and with a
    valueless class on an element that is not a list. *)
Definition valued_class_page : node :=
  Elem "html" ∅
    [Elem "body" ∅
       [classed "h3" "black-info-title" [Text "Results today"];
        Elem "div" {[ "class" := None ]} [];
        classed "ul" "hp2-results" [item];
        classed "h3" "black-info-title" [Text "Results yesterday"];
        classed "ul" "hp2-results" [item]]].

End Raw.

(* ===================================================================== *)
(** ** Documents for the edge cases *)
(* ===================================================================== *)

Module EdgeCases.

Import Examples.

(** The first [div.content] has no [div.page-content]; a later one has. *)
Definition two_contents_page : document :=
  page [el "div" "content" [a_href "race/first/2026" [Text "first"]];
        el "div" "content"
           [el "div" "page-content" [a_href "race/second/2026" [Text "second"]]]].

(** The URLs collected from [calendar_page], offered again as hrefs, in
    another order and one of them twice. *)
Definition recollected_page : document :=
  page [el "div" "content"
           [el "div" "page-content"
               [a_href "race/b/2026" [Text "B"];
                a_href "race/a/2026" [Text "A"];
                a_href "race/b/2026" [Text "B again"]]]].

(** The same URLs with the leading slash. *)
Definition slashed_page : document :=
  page [el "div" "content"
           [el "div" "page-content"
               [a_href "/race/a/2026" [Text "A"];
                a_href "/race/b/2026" [Text "B"]]]].

(** A live item whose texts carry white space around and between the text
    nodes, and whose [href] carries white space too. *)
Definition padded_item : node :=
  el "li" "live"
     [a_href " race/p/2026 " [el "span" "title" [Text "  Tour "; Elem "b" ∅ [Text " P  "]]];
      el "div" "togo" [Text "
   3 km   "]].
(** A live item whose title has no-break spaces (U+00A0) and an em space
    (U+2003) around it. *)
Definition nbsp_item : node :=
  el "li" "live"
     [a_href "race/q/2026"
        [el "span" "title"
            [Text (of_bytes [194; 160; 32] +:+ "Gran Premio Città"
                   +:+ of_bytes [226; 128; 131; 10])]]].
Definition nbsp_page : document :=
  page [el "ul" "hp3-livestats" [nbsp_item]].

Definition padded_page : document :=
  page [el "ul" "hp3-livestats" [padded_item; Elem "li" {[ "class" := "live" ]} [Text "no link"]]].

(** A results list nested in a sibling of the heading, not a sibling
    itself. *)
Definition nested_list_page : document :=
  page [heading "Results today";
        Elem "div" ∅
          [el "ul" "hp2-results" [result_item "race/n/2026" "Nested" "ME"]]].

(** A result whose link is written with a capital letter. *)
Definition capital_page : document :=
  page [heading "Results today";
        el "ul" "hp2-results" [result_item "Race/a/2026" "Race A" "ME"];
        heading "Results yesterday";
        el "ul" "hp2-results" [result_item "RACE/b/2026" "Race B" "WE"]].

Definition a_result : Harness.TestResult unit unit :=
  {| Harness.name := "TodayRaces Scraper (today)"; Harness.url := "";
     Harness.success := true; Harness.error := None;
     Harness.result_data := Harness.NoData; Harness.time := inl 0%Z |}.

Definition str_exn (e : exn) : string :=
  match e with
  | AttributeError => "AttributeError"
  | IndexError => "IndexError"
  | TypeError => "TypeError"
  | ConnectionError => "ConnectionError"
  end.

End EdgeCases.

(* ===================================================================== *)
(** ** Loops and builtins *)
(* ===================================================================== *)

Section Loops.
Context {A R : Type}.

(** A loop whose body either continues or appends one record collects
    the records of the items that have one, in order. *)
Lemma for_in_collect (f : A → option R) (body : A → list R → exc (list R))
      (xs : list A) (races : list R) :
  (∀ x acc, body x acc = Return (acc ++ option_list (f x))) →
  for_in xs body races = Return (races ++ omap f xs).
Proof.
  intros Hbody. revert races.
  induction xs as [|x xs IH]; intros races; simpl.
  - by rewrite app_nil_r.
  - rewrite Hbody. simpl. rewrite IH.
    destruct (f x); simpl; by rewrite <- ?app_assoc, ?app_nil_r.
Qed.

Lemma getitem_lookup (l : list A) (i : nat) (x : A) :
  l !! i = Some x → getitem l i = Return x.
Proof. unfold getitem. by intros ->. Qed.

End Loops.

Section Strings.

Lemma startswith_nonempty (s p : string) :
  p ≠ "" → startswith s p = true → s ≠ "".
Proof. destruct p, s; naive_solver. Qed.

(** A string that starts with ["race/"] does not start with ["/"]. *)
Lemma race_prefix_no_slash (s : string) :
  startswith s "race/" = true → startswith s "/" = false.
Proof.
  destruct s as [|c s]; [done|]. cbn [startswith].
  intros [Hc _]%andb_true_iff. by apply Ascii.eqb_eq in Hc as <-.
Qed.

(** Dropping the slash of ["/race/..."] leaves ["race/..."]. *)
Lemma tail_slash_race (s : string) :
  startswith s "/race/" = true → startswith (tail s) "race/" = true.
Proof.
  destruct s as [|c s]; [done|]. cbn [startswith tail].
  by intros [_ Hs]%andb_true_iff.
Qed.

Lemma normalise_admitted (h : string) :
  Spec.admitted h = true → startswith (Spec.normalise h) "race/" = true.
Proof.
  unfold Spec.admitted, Spec.normalise.
  destruct (startswith h "/race/") eqn:Hs; simpl.
  - intros _. by apply tail_slash_race.
  - done.
Qed.

End Strings.

(* ===================================================================== *)
(** ** The loop bodies and the records they contribute *)
(* ===================================================================== *)

(** The cases in which the body executes [continue]: nothing is appended. *)
Ltac continues := simpl; by rewrite app_nil_r.

Section Bodies.

Lemma live_races_body_record (li : loc) (races : list LiveRace.t) :
  live_races_body li races
  = Return (races ++ option_list (Spec.live_record li)).
Proof.
  unfold live_races_body, Spec.live_record.
  destruct (css_first li sel_a) as [a|]; simpl; [|continues].
  by destruct (css_first li sel_title), (css_first li sel_togo).
Qed.

Lemma next_to_finish_body_record (row : loc) (races : list NextRace.t) :
  next_to_finish_body row races
  = Return (races ++ option_list (Spec.next_record row)).
Proof.
  unfold next_to_finish_body, Spec.next_record.
  set (cells := css row sel_td).
  destruct (decide (length cells < 4)) as [Hlt|Hge].
  { rewrite bool_decide_eq_true_2 by done. continues. }
  rewrite bool_decide_eq_false_2 by done.
  destruct (lookup_lt_is_Some_2 cells 1) as [c1 Hc1]; [lia|].
  destruct (lookup_lt_is_Some_2 cells 3) as [c3 Hc3]; [lia|].
  rewrite (bool_decide_eq_true_2 (length cells > 1)) by (unfold gt; lia).
  rewrite (bool_decide_eq_true_2 (length cells > 3)) by (unfold gt; lia).
  rewrite (getitem_lookup _ _ _ Hc1), (getitem_lookup _ _ _ Hc3), Hc1, Hc3.
  simpl. destruct (css_first c3 sel_a) as [a|]; simpl; [|continues].
  assert (Hcell : ∀ i,
    (if bool_decide (length cells > i)
     then c ← getitem cells i; Return (text c true)
     else Return "") = Return (Spec.text_or_empty (cells !! i))).
  { intros i. case_bool_decide as Hi.
    - destruct (lookup_lt_is_Some_2 cells i) as [c Hc]; [unfold gt in Hi; lia|].
      by rewrite (getitem_lookup _ _ _ Hc), Hc.
    - rewrite lookup_ge_None_2; [done|unfold gt in Hi; lia]. }
  by rewrite !Hcell.
Qed.

Lemma finished_races_body_record (li : loc) (races : list Result.t) :
  finished_races_body li races
  = Return (races ++ option_list (Spec.result_record li)).
Proof.
  unfold finished_races_body, Spec.result_record.
  destruct (css_first li sel_race_link) as [a|]; simpl; [|continues].
  by destruct (css_first a sel_b), (css_first li sel_category).
Qed.

Lemma yesterday_races_body_record (li : loc) (races : list Result.t) :
  yesterday_races_body li races
  = Return (races ++ option_list (Spec.result_record li)).
Proof.
  unfold yesterday_races_body, Spec.result_record.
  destruct (css_first li sel_race_link) as [a|]; simpl; [|continues].
  by destruct (css_first a sel_b), (css_first li sel_category).
Qed.

End Bodies.

(* ===================================================================== *)
(** ** The methods as maps over their items *)
(* ===================================================================== *)

Section Methods.

Lemma live_races_records (html : document) :
  live_races html
  = Return (omap Spec.live_record (css (root html) sel_live)).
Proof.
  unfold live_races.
  by rewrite (for_in_collect Spec.live_record)
    by apply live_races_body_record.
Qed.

Lemma next_to_finish_records (html : document) :
  next_to_finish html
  = Return (omap Spec.next_record (Spec.next_rows html)).
Proof.
  unfold next_to_finish, Spec.next_rows.
  destruct (css_first (root html) sel_next_table) as [table|]; simpl; [|done].
  by rewrite (for_in_collect Spec.next_record)
    by apply next_to_finish_body_record.
Qed.

Lemma find_cons {A : Type} (P : A → Prop) `{∀ x, Decision (P x)}
      (x : A) (l : list A) :
  snd <$> list_find P (x :: l)
  = if decide (P x) then Some x else snd <$> list_find P l.
Proof.
  cbn [list_find]. case_decide; [done|].
  by destruct (list_find P l) as [[i y]|].
Qed.

Lemma results_list_test (n : node) :
  String.eqb (tag n) "ul"
  && contains "hp2-results" (default "" (attributes n !! "class"))
  = bool_decide (Spec.is_results_list n).
Proof.
  unfold Spec.is_results_list.
  case_bool_decide as Hn.
  - destruct Hn as [Ht Hc]. by rewrite Ht, Hc.
  - apply not_true_is_false. intros [Ht Hc]%andb_true_iff.
    apply Hn. split; [by apply String.eqb_eq|done].
Qed.

(** The sibling walk returns the first list of the chain it is entered
    on. *)
Lemma finished_races_while_find (n : node) (rest : list node) :
  finished_races_while n rest = Spec.first_list (n :: rest).
Proof.
  unfold Spec.first_list.
  revert n. induction rest as [|m rest IH]; intros n;
    cbn [finished_races_while chain]; rewrite find_cons, results_list_test;
    cbn [here]; by case_bool_decide; case_decide.
Qed.

(** One turn of the [while sibling] loop: test [sibling], then go on with
    [sibling.next]. *)
Lemma finished_races_while_next (sibling : loc) :
  finished_races_while (here sibling) (after sibling)
  = if String.eqb (tag (here sibling)) "ul"
       && contains "hp2-results"
            (default "" (attributes (here sibling) !! "class"))
    then Some sibling
    else match next sibling with
         | Some sibling' =>
             finished_races_while (here sibling') (after sibling')
         | None => None
         end.
Proof. by destruct sibling as [n [|m rest]]. Qed.

Lemma yesterday_races_while_find (n : node) (rest : list node) :
  yesterday_races_while n rest = finished_races_while n rest.
Proof.
  revert n. induction rest as [|m rest IH]; intros n; simpl; by rewrite ?IH.
Qed.

Lemma next_walk (h3 : loc) :
  match next h3 with
  | Some sibling => finished_races_while (here sibling) (after sibling)
  | None => None
  end = Spec.first_list (after h3).
Proof.
  unfold next. destruct (after h3) as [|n rest]; [done|].
  apply finished_races_while_find.
Qed.

Lemma finished_races_section_find (h3s : list loc) :
  finished_races_section h3s
  = (h3 ← snd <$> list_find (Spec.has_label "Results today") h3s;
     Spec.first_list (after h3)).
Proof.
  induction h3s as [|h3 h3s IH]; [done|].
  cbn [finished_races_section list_find]. case_decide as Hl.
  - unfold Spec.has_label in Hl. rewrite Hl. simpl. apply next_walk.
  - unfold Spec.has_label in Hl. apply not_true_is_false in Hl.
    rewrite Hl, IH.
    by destruct (list_find (Spec.has_label "Results today") h3s) as [[i l]|].
Qed.

Lemma yesterday_races_section_find (h3s : list loc) :
  yesterday_races_section h3s
  = (h3 ← snd <$> list_find (Spec.has_label "Results yesterday") h3s;
     Spec.first_list (after h3)).
Proof.
  induction h3s as [|h3 h3s IH]; [done|].
  cbn [yesterday_races_section list_find]. case_decide as Hl.
  - unfold Spec.has_label in Hl. rewrite Hl. simpl.
    rewrite <- next_walk. destruct (next h3); [|done].
    apply yesterday_races_while_find.
  - unfold Spec.has_label in Hl. apply not_true_is_false in Hl.
    rewrite Hl, IH.
    by destruct (list_find (Spec.has_label "Results yesterday") h3s)
      as [[i l]|].
Qed.





Lemma finished_races_results (html : document) :
  finished_races html = Spec.results_by_label "Results today" html.
Proof.
  unfold finished_races, Spec.results_by_label, Spec.locate, Spec.headings.
  rewrite finished_races_section_find.
  destruct (_ ≫= _) as [section|]; simpl; [|done].
  by rewrite (for_in_collect Spec.result_record)
    by apply finished_races_body_record.
Qed.

Lemma yesterday_races_results (html : document) :
  yesterday_races html = Spec.results_by_label "Results yesterday" html.
Proof.
  unfold yesterday_races, Spec.results_by_label, Spec.locate, Spec.headings.
  rewrite yesterday_races_section_find.
  destruct (_ ≫= _) as [section|]; simpl; [|done].
  by rewrite (for_in_collect Spec.result_record)
    by apply yesterday_races_body_record.
Qed.

End Methods.

(* ===================================================================== *)
(** ** The calendar collector *)
(* ===================================================================== *)

Section Calendar.

Lemma truthy_admitted (h : string) :
  truthy h && (startswith h "/race/" || startswith h "race/")
  = Spec.admitted h.
Proof. unfold Spec.admitted. by destruct h. Qed.

Lemma race_urls_body_step (a : loc) (race_urls : gset string) :
  race_urls_body a race_urls
  = Return (list_to_set (Spec.urls_of_anchors [a]) ∪ race_urls).
Proof.
  unfold race_urls_body, Spec.urls_of_anchors. simpl.
  destruct (attributes (here a) !! "href") as [h|]; simpl.
  - rewrite truthy_admitted. rewrite filter_cons, filter_nil.
    destruct (Spec.admitted h) eqn:Hadm; simpl.
    + unfold Spec.normalise. by rewrite (right_id_L ∅ (∪)).
    + by rewrite (left_id_L ∅ (∪)).
  - by rewrite (left_id_L ∅ (∪)).
Qed.

Lemma urls_of_anchors_cons (a : loc) (anchors : list loc) :
  Spec.urls_of_anchors (a :: anchors)
  = Spec.urls_of_anchors [a] ++ Spec.urls_of_anchors anchors.
Proof.
  unfold Spec.urls_of_anchors. simpl.
  destruct (attributes (here a) !! "href") as [h|]; simpl; [|done].
  rewrite !filter_cons, filter_nil.
  by destruct (decide (Spec.admitted h = true)).
Qed.

Lemma race_urls_loop (anchors : list loc) (race_urls : gset string) :
  for_in anchors race_urls_body race_urls
  = Return (list_to_set (Spec.urls_of_anchors anchors) ∪ race_urls).
Proof.
  revert race_urls. induction anchors as [|a anchors IH]; intros race_urls.
  - simpl. by rewrite (left_id_L ∅ (∪)).
  - cbn [for_in]. rewrite race_urls_body_step. simpl. rewrite IH.
    rewrite (urls_of_anchors_cons a anchors), list_to_set_app_L. f_equal.
    rewrite (assoc_L (∪)). f_equal. apply (comm_L (∪)).
Qed.

(** The collector returns the sorted elements of the set of admitted,
    normalised hrefs. *)
Lemma race_urls_of_set (html : document) :
  race_urls_of html
  = Return (sorted (elements (list_to_set (Spec.calendar_urls html)
                              : gset string))).
Proof.
  unfold race_urls_of, Spec.calendar_urls, Spec.calendar_anchors.
  destruct (css_first (root html) sel_content) as [content|]; simpl.
  - destruct (css_first content sel_page_content) as [page|]; simpl.
    + rewrite race_urls_loop. simpl. by rewrite (right_id_L ∅ (∪)).
    + done.
  - done.
Qed.

End Calendar.

(* ===================================================================== *)
(** ** The results sections *)
(* ===================================================================== *)


(** C6.  [finished_races] and [yesterday_races] are the one routine
    [Spec.results_by_label] at the labels ["Results today"] and
    ["Results yesterday"]; on a document where the two labels locate the
    same container they return the same records. *)
Theorem results_one_routine (html : document) :
  finished_races html = Spec.results_by_label "Results today" html
  ∧ yesterday_races html = Spec.results_by_label "Results yesterday" html
  ∧ (Spec.locate "Results today" html = Spec.locate "Results yesterday" html →
     finished_races html = yesterday_races html).
Proof.
  rewrite finished_races_results, yesterday_races_results.
  split_and!; [done..|].
  unfold Spec.results_by_label. by intros ->.
Qed.

Example shared_page_same_section :
  Spec.locate "Results today" Examples.shared_page
  = Spec.locate "Results yesterday" Examples.shared_page
  ∧ finished_races Examples.shared_page
    = Return [Result.Make "race/u/2026" "Race U" "WE"]
  ∧ yesterday_races Examples.shared_page
    = Return [Result.Make "race/u/2026" "Race U" "WE"].
Proof. by vm_compute. Qed.

Example results_page_sections :
  finished_races Examples.results_page
  = Return [Result.Make "race/t/2026/stage-1" "Tour T" "ME"]
  ∧ yesterday_races Examples.results_page
    = Return [Result.Make "race/u/2026" "Race U" "WE"].
Proof. by vm_compute. Qed.

(* ===================================================================== *)
(** ** Live races *)
(* ===================================================================== *)

(** C5.  [live_races] returns, in order, one record for each item matched
    by [ul.hp3-livestats li.live] that contains an anchor and none for the
    others.  The record has the [href] of the first anchor as [url] (the
    empty string without the attribute), the stripped text of the first
    [span.title] of the item as [name] and of the first [div.togo] as
    [togo] (the empty string when the element is absent), and ["live"] as
    [status].  The page with the single item of the scenario gives the
    single record of the scenario. *)
Theorem live_races_records_of_items :
  (∀ html,
     live_races html
     = Return (omap Spec.live_record (css (root html) sel_live)))
  ∧ (∀ li, css_first li sel_a = None → Spec.live_record li = None)
  ∧ (∀ li a,
       css_first li sel_a = Some a →
       ∃ r, Spec.live_record li = Some r
            ∧ LiveRace.url r = default "" (attributes (here a) !! "href")
            ∧ LiveRace.name r
              = match css_first li sel_title with
                | Some title => text title true
                | None => ""
                end
            ∧ LiveRace.status r = "live"
            ∧ LiveRace.togo r
              = match css_first li sel_togo with
                | Some togo => text togo true
                | None => ""
                end)
  ∧ live_races Examples.live_page
    = Return [LiveRace.Make "race/x/2026/stage-2/live" "Stage 2" "live" "12km"].
Proof.
  split_and!.
  - apply live_races_records.
  - intros li Ha. unfold Spec.live_record. by rewrite Ha.
  - intros li a Ha. unfold Spec.live_record. rewrite Ha. simpl.
    eexists. split; [done|]. simpl.
    by destruct (css_first li sel_title), (css_first li sel_togo).
  - by vm_compute.
Qed.

(* ===================================================================== *)
(** ** Next to finish *)
(* ===================================================================== *)

(** C2.  In [next_to_finish] a row with fewer than 4 cells leaves the list
    of records as it is, and so does a row with at least 4 cells whose cell
    of index 3 contains no anchor.  A row with at least 4 cells and an
    anchor in cell 3 appends exactly one record: [eta] is the stripped text
    of cell 1, [url] the [href] of that anchor and [name] its stripped
    text, [category] the stripped text of cell 4 and [class] that of cell
    5, each the empty string when the cell is absent.  The cells of a row
    are the elements [td] selects in it, counted from 0, and the method
    applies the body to the rows of the table body in order. *)
Theorem next_to_finish_rows (row : loc) (races : list NextRace.t) :
  let cells := css row sel_td in
  (length cells < 4 → next_to_finish_body row races = Return races)
  ∧ (∀ c3,
       cells !! 3 = Some c3 → css_first c3 sel_a = None →
       next_to_finish_body row races = Return races)
  ∧ (∀ c1 c3 a,
       cells !! 1 = Some c1 → cells !! 3 = Some c3 →
       css_first c3 sel_a = Some a →
       next_to_finish_body row races
       = Return (races ++
           [NextRace.Make
              (default "" (attributes (here a) !! "href"))
              (text a true)
              (text c1 true)
              (match cells !! 4 with Some c4 => text c4 true | None => "" end)
              (match cells !! 5 with Some c5 => text c5 true | None => "" end)]))
  ∧ (∀ html,
       next_to_finish html
       = for_in (Spec.next_rows html) next_to_finish_body []).
Proof.
  intros cells. split_and!.
  - intros Hlt. rewrite next_to_finish_body_record. unfold Spec.next_record.
    fold cells. rewrite decide_True by done. continues.
  - intros c3 Hc3 Ha. rewrite next_to_finish_body_record.
    unfold Spec.next_record. fold cells.
    destruct (decide (length cells < 4)); simpl; [continues|].
    rewrite Hc3. destruct (cells !! 1); simpl; rewrite ?Ha; simpl;
      by rewrite app_nil_r.
  - intros c1 c3 a Hc1 Hc3 Ha. rewrite next_to_finish_body_record.
    unfold Spec.next_record. fold cells.
    apply lookup_lt_Some in Hc3 as Hlen.
    rewrite decide_False by lia. rewrite Hc1, Hc3. simpl. rewrite Ha. simpl.
    by destruct (cells !! 4), (cells !! 5).
  - intros html. unfold next_to_finish, Spec.next_rows.
    by destruct (css_first (root html) sel_next_table).
Qed.

Example next_page_rows :
  next_to_finish_body (Loc Examples.short_row []) [] = Return []
  ∧ next_to_finish_body (Loc Examples.unlinked_row []) [] = Return []
  ∧ next_to_finish Examples.next_page
    = Return [NextRace.Make "race/y/2026/stage-1" "Race Y" "16:05" "ME" "2.UWT";
              NextRace.Make "" "Race Z" "16:30" "" ""].
Proof. by vm_compute. Qed.

(** C10.  A row of the next-to-finish table whose cell of index 3 holds an
    anchor without an [href] attribute still contributes a record, with the
    empty string as [url]: the result of [next_to_finish] on that document
    contains a record whose [url] is empty. *)
Theorem next_to_finish_empty_url (html : document) (row c3 a : loc) :
  row ∈ Spec.next_rows html →
  css row sel_td !! 3 = Some c3 →
  css_first c3 sel_a = Some a →
  attributes (here a) !! "href" = None →
  (∀ races, ∃ r, next_to_finish_body row races = Return (races ++ [r])
                 ∧ NextRace.url r = "")
  ∧ ∃ rs r, next_to_finish html = Return rs ∧ r ∈ rs ∧ NextRace.url r = "".
Proof.
  intros Hrow Hc3 Ha Hhref.
  assert (Hrec : ∃ r, Spec.next_record row = Some r ∧ NextRace.url r = "").
  { unfold Spec.next_record. apply lookup_lt_Some in Hc3 as Hlen.
    rewrite decide_False by lia.
    destruct (lookup_lt_is_Some_2 (css row sel_td) 1) as [c1 Hc1]; [lia|].
    rewrite Hc1, Hc3. simpl. rewrite Ha. simpl. eexists. split; [done|].
    simpl. unfold Spec.href_of. by rewrite Hhref. }
  destruct Hrec as (r & Hrec & Hurl). split.
  - intros races. exists r. split; [|done].
    by rewrite next_to_finish_body_record, Hrec.
  - exists (omap Spec.next_record (Spec.next_rows html)), r.
    split_and!; [apply next_to_finish_records| |done].
    apply list_elem_of_omap. by exists row.
Qed.

Lemma next_to_finish_empty_url_witness :
  ∃ rs r, next_to_finish Examples.next_page = Return rs
          ∧ r ∈ rs ∧ NextRace.url r = "".
Proof.
  refine (proj2 (next_to_finish_empty_url Examples.next_page
                   (Loc Examples.bare_row [])
                   (Loc (Examples.td [Elem "a" ∅ [Text "Race Z"]]) [])
                   (Loc (Elem "a" ∅ [Text "Race Z"]) [])
                   _ _ _ _)).
  - apply (list_elem_of_lookup_2 _ 3). vm_compute. reflexivity.
  - vm_compute. reflexivity.
  - vm_compute. reflexivity.
  - vm_compute. reflexivity.
Defined.

(* ===================================================================== *)
(** ** Records and their anchors *)
(* ===================================================================== *)

Section Anchors.

Lemma fold_case_nonempty (s : string) : fold_case s ≠ "" → s ≠ "".
Proof. by destruct s. Qed.

(** The race link of a result item has an [href] that starts with
    ["race/"], the case of its letters apart. *)
Lemma race_link_href (li a : loc) :
  css_first li sel_race_link = Some a →
  ∃ href, attributes (here a) !! "href" = Some href
          ∧ startswith (fold_case href) "race/" = true.
Proof.
  unfold css_first. intros Hhead%head_Some_elem_of.
  unfold css, sel_race_link in Hhead. cbn [sel_first sel_rest foldl] in Hhead.
  unfold step in Hhead. cbn [fst snd] in Hhead.
  apply list_elem_of_bind in Hhead as (d & Ha & _).
  apply list_elem_of_filter in Ha as [Hm _].
  unfold matches in Hm. destruct (here a) as [t attrs cs| |]; [|done..].
  apply Is_true_true in Hm.
  apply andb_true_iff in Hm as [_ Hm].
  cbn [sel_attr_prefix has_attr_prefix attributes] in *.
  destruct (attrs !! "href") as [href|]; [|done]. by exists href.
Qed.

Lemma result_record_url (li : loc) (r : Result.t) :
  Spec.result_record li = Some r →
  ∃ a, css_first li sel_race_link = Some a
       ∧ Result.url r = Spec.href_of a
       ∧ startswith (fold_case (Result.url r)) "race/" = true
       ∧ Result.url r ≠ "".
Proof.
  unfold Spec.result_record.
  destruct (css_first li sel_race_link) as [a|] eqn:Ha; [|done].
  simpl. intros [= <-]. exists a. simpl.
  destruct (race_link_href _ _ Ha) as (href & Hhref & Hpre).
  unfold Spec.href_of. rewrite Hhref. simpl.
  split_and!; [done..|].
  by apply fold_case_nonempty, (startswith_nonempty _ "race/").
Qed.

Lemma results_by_label_records (label : string) (html : document)
      (r : Result.t) :
  r ∈ omap Spec.result_record
        (from_option (λ s, css s sel_li_race) [] (Spec.locate label html)) →
  ∃ section li a,
    Spec.locate label html = Some section
    ∧ li ∈ css section sel_li_race
    ∧ css_first li sel_race_link = Some a
    ∧ Result.url r = Spec.href_of a
    ∧ startswith (fold_case (Result.url r)) "race/" = true
    ∧ Result.url r ≠ "".
Proof.
  destruct (Spec.locate label html) as [section|]; simpl.
  - intros (li & Hli & Hr)%list_elem_of_omap.
    destruct (result_record_url _ _ Hr) as (a & Ha & Hurl & Hpre & Hne).
    by exists section, li, a.
  - by intros ?%elem_of_nil.
Qed.

End Anchors.

(** C8.  Every record of [live_races], [next_to_finish], [finished_races]
    and [yesterday_races] comes from an item (a row) in which the anchor
    that defines it exists, and its [url] is read from that anchor; an item
    without the anchor leaves the list of records as it is. *)
Theorem records_have_anchors (html : document) :
  (∃ rs, live_races html = Return rs
         ∧ ∀ r, r ∈ rs →
             ∃ li a, li ∈ css (root html) sel_live
                     ∧ css_first li sel_a = Some a
                     ∧ LiveRace.url r = Spec.href_of a)
  ∧ (∃ rs, next_to_finish html = Return rs
           ∧ ∀ r, r ∈ rs →
               ∃ row c3 a, row ∈ Spec.next_rows html
                           ∧ css row sel_td !! 3 = Some c3
                           ∧ css_first c3 sel_a = Some a
                           ∧ NextRace.url r = Spec.href_of a
                           ∧ NextRace.name r = text a true)
  ∧ (∃ rs, finished_races html = Return rs
           ∧ ∀ r, r ∈ rs →
               ∃ section li a,
                 Spec.locate "Results today" html = Some section
                 ∧ li ∈ css section sel_li_race
                 ∧ css_first li sel_race_link = Some a
                 ∧ Result.url r = Spec.href_of a)
  ∧ (∃ rs, yesterday_races html = Return rs
           ∧ ∀ r, r ∈ rs →
               ∃ section li a,
                 Spec.locate "Results yesterday" html = Some section
                 ∧ li ∈ css section sel_li_race
                 ∧ css_first li sel_race_link = Some a
                 ∧ Result.url r = Spec.href_of a)
  ∧ (∀ li races,
       css_first li sel_a = None → live_races_body li races = Return races)
  ∧ (∀ row races,
       (∀ c3, css row sel_td !! 3 = Some c3 → css_first c3 sel_a = None) →
       next_to_finish_body row races = Return races)
  ∧ (∀ li races,
       css_first li sel_race_link = None →
       finished_races_body li races = Return races
       ∧ yesterday_races_body li races = Return races).
Proof.
  split_and!.
  - eexists. split; [apply live_races_records|].
    intros r (li & Hli & Hr)%list_elem_of_omap. unfold Spec.live_record in Hr.
    destruct (css_first li sel_a) as [a|] eqn:Ha; [|done].
    simpl in Hr. injection Hr as <-. by exists li, a.
  - eexists. split; [apply next_to_finish_records|].
    intros r (row & Hrow & Hr)%list_elem_of_omap.
    unfold Spec.next_record in Hr.
    destruct (decide _); [done|].
    destruct (css row sel_td !! 1) as [c1|]; [|done].
    destruct (css row sel_td !! 3) as [c3|] eqn:Hc3; [|done]. simpl in Hr.
    destruct (css_first c3 sel_a) as [a|] eqn:Ha; [|done].
    simpl in Hr. injection Hr as <-. by exists row, c3, a.
  - eexists. split; [apply finished_races_results|].
    intros r Hr.
    destruct (results_by_label_records _ _ _ Hr)
      as (section & li & a & ? & ? & ? & ? & _).
    by exists section, li, a.
  - eexists. split; [apply yesterday_races_results|].
    intros r Hr.
    destruct (results_by_label_records _ _ _ Hr)
      as (section & li & a & ? & ? & ? & ? & _).
    by exists section, li, a.
  - intros li races Ha. rewrite live_races_body_record.
    unfold Spec.live_record. rewrite Ha. continues.
  - intros row races Hnone. rewrite next_to_finish_body_record.
    unfold Spec.next_record.
    destruct (decide _); simpl; [continues|].
    destruct (css row sel_td !! 1) as [c1|]; simpl; [|continues].
    destruct (css row sel_td !! 3) as [c3|] eqn:Hc3; simpl; [|continues].
    rewrite (Hnone c3 eq_refl). continues.
  - intros li races Ha.
    rewrite finished_races_body_record, yesterday_races_body_record.
    unfold Spec.result_record. rewrite Ha. continues.
Qed.

(* ===================================================================== *)
(** ** Totality *)
(* ===================================================================== *)

(** On the documents in which every attribute has a value the four
    methods return a list and raise nothing: no method is called on [None]
    and no cell is read out of range.  A document without the live
    container, without the table body, or without a heading gives the empty
    list. *)
Lemma extractors_return_when_valued (html : document) :
  (∃ rs, live_races html = Return rs)
  ∧ (∃ rs, next_to_finish html = Return rs)
  ∧ (∃ rs, finished_races html = Return rs)
  ∧ (∃ rs, yesterday_races html = Return rs)
  ∧ (filter (λ l, matches (Compound "ul" ["hp3-livestats"] None) l)
            (subtree (root html)) = [] →
     live_races html = Return [])
  ∧ (css_first (root html) sel_next_table = None →
     next_to_finish html = Return [])
  ∧ (Spec.headings html = [] →
     finished_races html = Return [] ∧ yesterday_races html = Return []).
Proof.
  split_and!.
  - eexists. apply live_races_records.
  - eexists. apply next_to_finish_records.
  - eexists. apply finished_races_results.
  - eexists. apply yesterday_races_results.
  - intros Hnone. rewrite live_races_records.
    unfold css, sel_live. cbn [sel_first sel_rest]. by rewrite Hnone.
  - intros Hnone. rewrite next_to_finish_records.
    unfold Spec.next_rows. by rewrite Hnone.
  - intros Hnone. rewrite finished_races_results, yesterday_races_results.
    unfold Spec.results_by_label, Spec.locate. by rewrite Hnone.
Qed.

Section ValuelessAttributes.

Lemma omap_id_Some (a : gmap string string) : omap id (Some <$> a) = a.
Proof.
  apply map_eq. intros k. rewrite lookup_omap, lookup_fmap.
  by destruct (a !! k).
Qed.

Lemma valued_embed : ∀ n, Raw.valued (Raw.embed n) = n.
Proof.
  fix IH 1. intros [t a c|s|s]; [|done..].
  cbn [Raw.embed Raw.valued]. rewrite omap_id_Some. f_equal.
  induction c as [|m ms IHms]; [done|]. by rewrite IH, IHms.
Qed.

Lemma embed_nodes (ns : list Dom.node) :
  (fix nodes (ns : list Dom.node) : list Raw.node :=
     match ns with
     | [] => []
     | m :: ms => Raw.embed m :: nodes ms
     end) ns = Raw.embed <$> ns.
Proof. induction ns as [|m ms IH]; [done|]. by rewrite IH. Qed.

Lemma valued_embed_loc (l : loc) : Raw.valued_loc (Raw.embed_loc l) = l.
Proof.
  destruct l as [n rest]. unfold Raw.valued_loc, Raw.embed_loc. cbn.
  rewrite valued_embed. f_equal.
  induction rest as [|m ms IH]; [done|]. cbn. by rewrite valued_embed, IH.
Qed.

(** The nodes of an embedded document are the embedded nodes, in the same
    order. *)
Lemma locs_tree_embed : ∀ n rest,
  Raw.locs_tree (Raw.embed n) (Raw.embed <$> rest)
  = Raw.embed_loc <$> locs_tree n rest.
Proof.
  fix IH 1. intros [t a c|s|s] rest; [|done..].
  cbn [Raw.embed Raw.locs_tree locs_tree]. rewrite embed_nodes.
  rewrite fmap_cons. f_equal.
  induction c as [|m ms IHms]; [done|].
  rewrite fmap_cons, fmap_app, IH, IHms. done.
Qed.

Lemma select_embed (d : document) (c : compound) :
  Raw.select (Raw.root (Raw.embed d)) c
  = Raw.embed_loc <$> filter (λ m, matches c m) (subtree (root d)).
Proof.
  unfold Raw.select, Raw.subtree, Raw.root, subtree, root. cbn [Raw.here Raw.after here after].
  pose proof (locs_tree_embed d []) as Htree. simpl in Htree. rewrite Htree.
  clear Htree. induction (locs_tree d []) as [|l ls IH]; [done|].
  rewrite fmap_cons, !filter_cons, valued_embed_loc, IH.
  by destruct (decide _).
Qed.

Lemma attributes_get_embed (n : Dom.node) (key dflt : string) :
  Raw.attributes_get (Raw.embed n) key dflt
  = Some (default dflt (attributes n !! key)).
Proof.
  unfold Raw.attributes_get. destruct n as [t a c|s|s]; [|done..].
  cbn [Raw.embed Raw.attributes attributes]. rewrite lookup_fmap.
  by destruct (a !! key).
Qed.

Lemma tag_embed (n : Dom.node) : Raw.tag (Raw.embed n) = tag n.
Proof. by destruct n. Qed.

Lemma finished_races_while_embed (n : Dom.node) (rest : list Dom.node) :
  Raw.finished_races_while (Raw.embed n) (Raw.embed <$> rest)
  = Return (Raw.embed_loc <$> finished_races_while n rest).
Proof.
  revert n. induction rest as [|m rest IH]; intros n;
    cbn [Raw.finished_races_while finished_races_while fmap list_fmap];
    rewrite tag_embed, attributes_get_embed;
    destruct (String.eqb (tag n) "ul"); simpl;
    try destruct (contains _ _); simpl; try done; apply IH.
Qed.

Lemma yesterday_races_while_embed (n : Dom.node) (rest : list Dom.node) :
  Raw.yesterday_races_while (Raw.embed n) (Raw.embed <$> rest)
  = Return (Raw.embed_loc <$> yesterday_races_while n rest).
Proof.
  revert n. induction rest as [|m rest IH]; intros n;
    cbn [Raw.yesterday_races_while yesterday_races_while fmap list_fmap];
    rewrite tag_embed, attributes_get_embed;
    destruct (String.eqb (tag n) "ul"); simpl;
    try destruct (contains _ _); simpl; try done; apply IH.
Qed.

Lemma finished_races_section_embed (h3s : list loc) :
  Raw.finished_races_section (Raw.embed_loc <$> h3s)
  = Return (Raw.embed_loc <$> finished_races_section h3s).
Proof.
  induction h3s as [|h3 h3s IH]; [done|].
  rewrite fmap_cons. cbn [Raw.finished_races_section finished_races_section].
  rewrite valued_embed_loc. destruct (contains _ _); [|apply IH].
  destruct h3 as [n [|m rest]]; [done|]. apply finished_races_while_embed.
Qed.

Lemma yesterday_races_section_embed (h3s : list loc) :
  Raw.yesterday_races_section (Raw.embed_loc <$> h3s)
  = Return (Raw.embed_loc <$> yesterday_races_section h3s).
Proof.
  induction h3s as [|h3 h3s IH]; [done|].
  rewrite fmap_cons. cbn [Raw.yesterday_races_section yesterday_races_section].
  rewrite valued_embed_loc. destruct (contains _ _); [|apply IH].
  destruct h3 as [n [|m rest]]; [done|]. apply yesterday_races_while_embed.
Qed.

(** On a document in which every attribute has a value the methods given
    on [Raw] are the methods given on [Dom]. *)
Lemma raw_methods_when_valued (d : document) :
  Raw.finished_races (Raw.embed d) = finished_races d
  ∧ Raw.yesterday_races (Raw.embed d) = yesterday_races d.
Proof.
  unfold Raw.finished_races, Raw.yesterday_races, finished_races,
    yesterday_races.
  rewrite select_embed, finished_races_section_embed,
    yesterday_races_section_embed.
  change (filter (λ m, matches (sel_first sel_h3) m) (subtree (root d)))
    with (css (root d) sel_h3).
  split.
  - destruct (finished_races_section (css (root d) sel_h3)) as [section|];
      simpl; [|done]. by rewrite valued_embed_loc.
  - destruct (yesterday_races_section (css (root d) sel_h3)) as [section|];
      simpl; [|done]. by rewrite valued_embed_loc.
Qed.

End ValuelessAttributes.

(** C4.  The claim fails on the code: [finished_races] and
    [yesterday_races] are not total.  On the page
    [<h3 class="black-info-title">Results today</h3><ul class="">...</ul>]
    the library reports the class of the list as [None], the default of
    [attributes.get("class", "")] does not apply, and
    ["hp2-results" in None] raises [TypeError]; the same happens under
    ["Results yesterday"].  With the class written out, or with the
    valueless class on an element that is not a list, both methods return
    their records. *)
Theorem finished_races_raises_TypeError :
  Raw.finished_races Raw.valueless_class_page = Raise TypeError
  ∧ Raw.yesterday_races Raw.valueless_class_page = Raise TypeError
  ∧ Raw.finished_races Raw.valued_class_page
    = Return [Result.Make "race/v/2026" "Race V" "ME"]
  ∧ Raw.yesterday_races Raw.valued_class_page
    = Return [Result.Make "race/v/2026" "Race V" "ME"].
Proof. by vm_compute. Qed.

Example empty_page_results :
  live_races Examples.empty_page = Return []
  ∧ next_to_finish Examples.empty_page = Return []
  ∧ finished_races Examples.empty_page = Return []
  ∧ yesterday_races Examples.empty_page = Return [].
Proof. by vm_compute. Qed.

(* ===================================================================== *)
(** ** The category of a result *)
(* ===================================================================== *)

(** C7, as stated, fails: the category span of [Examples.deep_item] is not
    a sibling of the anchor (the anchor is the only child of its [div]),
    and the record still carries its text. *)
Lemma category_not_from_sibling :
  finished_races Examples.deep_page
  = Return [Result.Make "race/x/2026" "Race X" "1.UWT"]
  ∧ Spec.anchor_siblings (Loc Examples.deep_item []) = []
  ∧ ¬ (∀ li races r,
         finished_races_body li races = Return (races ++ [r]) →
         Result.category r = Spec.sibling_category li).
Proof.
  split_and!; [by vm_compute..|].
  intros Hclaim.
  specialize (Hclaim (Loc Examples.deep_item []) []
                     (Result.Make "race/x/2026" "Race X" "1.UWT")).
  by vm_compute in Hclaim; specialize (Hclaim eq_refl).
Qed.

(** C7, amended.  A list item with a race link contributes one record, in
    [finished_races] and in [yesterday_races] alike, whose category is the
    stripped text of the first element matching [span.category] in the
    subtree of the item, in document order and at any depth, and the empty
    string when the subtree has none. *)
Theorem category_of_item (li a : loc) (races : list Result.t) :
  css_first li sel_race_link = Some a →
  ∃ r, finished_races_body li races = Return (races ++ [r])
       ∧ yesterday_races_body li races = Return (races ++ [r])
       ∧ Result.category r
         = match head (filter (λ c, Spec.is_category_span c) (subtree li)) with
           | Some span => text span true
           | None => ""
           end.
Proof.
  intros Ha. rewrite finished_races_body_record, yesterday_races_body_record.
  unfold Spec.result_record. rewrite Ha. simpl.
  eexists. split_and!; [done..|]. simpl.
  unfold css_first, css, sel_category, classed. cbn [sel_first sel_rest foldl].
  by destruct (head _).
Qed.

Lemma category_of_item_witness :
  ∃ r, finished_races_body (Loc Examples.deep_item []) [] = Return ([] ++ [r])
       ∧ yesterday_races_body (Loc Examples.deep_item []) []
         = Return ([] ++ [r])
       ∧ Result.category r = "1.UWT".
Proof.
  refine (category_of_item
            (Loc Examples.deep_item [])
            (Loc (Examples.a_href "race/x/2026" [Elem "b" ∅ [Text "Race X"]]) [])
            [] _).
  vm_compute. reflexivity.
Defined.

(* ===================================================================== *)
(** ** The calendar URLs *)
(* ===================================================================== *)

Section SortedSet.

Lemma sorted_elements_NoDup (X : gset string) : NoDup (sorted (elements X)).
Proof.
  unfold sorted. rewrite merge_sort_Permutation. apply NoDup_elements.
Qed.

Lemma sorted_elements_sorted (X : gset string) :
  StronglySorted String.le (sorted (elements X)).
Proof. apply (StronglySorted_merge_sort _). Qed.

Lemma elem_of_sorted_elements (X : gset string) (u : string) :
  u ∈ sorted (elements X) ↔ u ∈ X.
Proof.
  unfold sorted. rewrite merge_sort_Permutation. apply elem_of_elements.
Qed.

Lemma calendar_urls_race (anchors : list loc) (u : string) :
  u ∈ Spec.urls_of_anchors anchors →
  startswith u "race/" = true ∧ u ≠ "" ∧ startswith u "/" = false.
Proof.
  unfold Spec.urls_of_anchors.
  intros (h & -> & [Hadm _]%list_elem_of_filter)%list_elem_of_fmap.
  apply normalise_admitted in Hadm.
  split_and!; [done| |by apply race_prefix_no_slash].
  by apply (startswith_nonempty _ "race/").
Qed.

Lemma race_urls_of_elements (html : document) :
  ∃ urls, race_urls_of html = Return urls
          ∧ ∀ u, u ∈ urls ↔ u ∈ Spec.calendar_urls html.
Proof.
  eexists. split; [apply race_urls_of_set|].
  intros u. by rewrite elem_of_sorted_elements, elem_of_list_to_set.
Qed.

End SortedSet.

(** C9, as stated, fails: the selector [a[href^='race/']] takes a link
    whose [href] is written [Race/a/2026], and [finished_races] and
    [yesterday_races] return that [href] as it is, which does not start
    with ["race/"]. *)
Lemma result_url_not_lower_case :
  finished_races EdgeCases.capital_page
  = Return [Result.Make "Race/a/2026" "Race A" "ME"]
  ∧ yesterday_races EdgeCases.capital_page
    = Return [Result.Make "RACE/b/2026" "Race B" "WE"]
  ∧ startswith "Race/a/2026" "race/" = false
  ∧ ¬ (∀ html rs,
         finished_races html = Return rs →
         Forall (λ r, startswith (Result.url r) "race/" = true) rs).
Proof.
  split_and!; [by vm_compute..|].
  intros Hclaim.
  specialize (Hclaim EdgeCases.capital_page
                     [Result.Make "Race/a/2026" "Race A" "ME"]).
  assert (Hrun : finished_races EdgeCases.capital_page
                 = Return [Result.Make "Race/a/2026" "Race A" "ME"])
    by (by vm_compute).
  specialize (Hclaim Hrun). by apply Forall_cons in Hclaim as [Hurl _].
Qed.

(** C9, amended.  Every [url] in the results of [finished_races] and
    [yesterday_races] is not empty and starts with ["race/"] when the
    letters A to Z are read as a to z, which is how the selector compares
    the [href]; every string in the result of [race_urls_for_date] is not
    empty and starts with ["race/"] as written. *)
Theorem urls_start_with_race_prefix :
  (∀ html,
     ∃ rs, finished_races html = Return rs
           ∧ Forall (λ r, startswith (fold_case (Result.url r)) "race/" = true
                          ∧ Result.url r ≠ "") rs)
  ∧ (∀ html,
       ∃ rs, yesterday_races html = Return rs
             ∧ Forall (λ r, startswith (fold_case (Result.url r)) "race/"
                            = true
                            ∧ Result.url r ≠ "") rs)
  ∧ (∀ html,
       ∃ urls, race_urls_of html = Return urls
               ∧ Forall (λ u, startswith u "race/" = true ∧ u ≠ "") urls)
  ∧ (∀ BASE_URL session_get HTMLParser date body,
       session_get (BASE_URL +:+ "races.php?p=uci&s=today&date=" +:+ date
                    +:+ "&nation=&cat=&filter=Filter") = Return body →
       ∃ urls,
         race_urls_for_date BASE_URL session_get HTMLParser date = Return urls
         ∧ Forall (λ u, startswith u "race/" = true ∧ u ≠ "") urls).
Proof.
  assert (Hres : ∀ label html,
    Forall (λ r, startswith (fold_case (Result.url r)) "race/" = true
                 ∧ Result.url r ≠ "")
      (omap Spec.result_record
         (from_option (λ s, css s sel_li_race) [] (Spec.locate label html)))).
  { intros label html. apply Forall_forall. intros r Hr.
    by destruct (results_by_label_records _ _ _ Hr)
      as (? & ? & ? & _ & _ & _ & _ & ? & ?). }
  assert (Hcal : ∀ html, ∃ urls, race_urls_of html = Return urls
             ∧ Forall (λ u, startswith u "race/" = true ∧ u ≠ "") urls).
  { intros html. destruct (race_urls_of_elements html) as (urls & Hurls & Helem).
    exists urls. split; [done|]. apply Forall_forall. intros u Hu%Helem.
    by destruct (calendar_urls_race _ _ Hu) as (? & ? & _). }
  split_and!.
  - intros html. eexists. split; [apply finished_races_results|]. apply Hres.
  - intros html. eexists. split; [apply yesterday_races_results|]. apply Hres.
  - done.
  - intros BASE_URL session_get HTMLParser date body Hget.
    unfold race_urls_for_date. rewrite Hget. simpl. apply Hcal.
Qed.

Example session_down_raises :
  race_urls_for_date "https://www.procyclingstats.com/"
    Examples.session_down (λ _, Examples.calendar_page) "2026-03-01"
  = Raise ConnectionError.
Proof. reflexivity. Qed.

(** C3.  For every response the list returned by [race_urls_for_date] has
    no duplicates, is in ascending lexicographic order, and none of its
    strings starts with ["/"].  Its strings are the admitted hrefs with the
    leading slash removed, so the result depends on which hrefs occur, not
    on their order or number.  The hrefs ["/race/a/2026"] and
    ["race/a/2026"] give the one entry ["race/a/2026"]. *)
Theorem race_urls_sorted_unique :
  (∀ html,
     ∃ urls, race_urls_of html = Return urls
             ∧ NoDup urls
             ∧ StronglySorted String.le urls
             ∧ Forall (λ u, startswith u "/" = false) urls
             ∧ ∀ u, u ∈ urls ↔ u ∈ Spec.calendar_urls html)
  ∧ (∀ html1 html2,
       (∀ u, u ∈ Spec.calendar_urls html1 ↔ u ∈ Spec.calendar_urls html2) →
       race_urls_of html1 = race_urls_of html2)
  ∧ (∀ BASE_URL session_get HTMLParser date body,
       session_get (BASE_URL +:+ "races.php?p=uci&s=today&date=" +:+ date
                    +:+ "&nation=&cat=&filter=Filter") = Return body →
       race_urls_for_date BASE_URL session_get HTMLParser date
       = race_urls_of (HTMLParser body))
  ∧ race_urls_of Examples.calendar_page
    = Return ["race/a/2026"; "race/b/2026"]
  ∧ race_urls_for_date "https://www.procyclingstats.com/"
      (Examples.session_ok "<html>...</html>")
      (λ _, Examples.calendar_page) "2026-03-01"
    = Return ["race/a/2026"; "race/b/2026"].
Proof.
  split_and!.
  - intros html. eexists. split; [apply race_urls_of_set|].
    split_and!.
    + apply sorted_elements_NoDup.
    + apply sorted_elements_sorted.
    + apply Forall_forall. intros u Hu%elem_of_sorted_elements.
      apply elem_of_list_to_set in Hu.
      by destruct (calendar_urls_race _ _ Hu) as (_ & _ & ?).
    + intros u. by rewrite elem_of_sorted_elements, elem_of_list_to_set.
  - intros html1 html2 Hsame. rewrite !race_urls_of_set.
    do 3 f_equal. apply set_eq. intros u.
    by rewrite !elem_of_list_to_set.
  - intros BASE_URL session_get HTMLParser date body Hget.
    unfold race_urls_for_date. by rewrite Hget.
  - by vm_compute.
  - by vm_compute.
Qed.

(* ===================================================================== *)
(** ** Stripped text *)
(* ===================================================================== *)

Section Appending.

Lemma append_cons (c : Ascii.ascii) (a b : string) :
  String c a +:+ b = String c (a +:+ b).
Proof. reflexivity. Qed.

Lemma append_empty_r (s : string) : s +:+ "" = s.
Proof. induction s as [|c s IH]; [done|]. by rewrite append_cons, IH. Qed.

Lemma append_assoc (a b c : string) : (a +:+ b) +:+ c = a +:+ (b +:+ c).
Proof. induction a as [|x a IH]; [done|]. by rewrite !append_cons, IH. Qed.

End Appending.

Section Characters.

Import TextNodes.

Lemma chars_nil (s : string) : chars s = [] → s = "".
Proof.
  destruct s as [|c s]; [done|]. cbn [chars].
  destruct (continues s); [by destruct (chars s)|done].
Qed.

(** The characters of a string make up the string. *)
Lemma join_chars (s : string) : join (chars s) = s.
Proof.
  induction s as [|c s IH]; [done|]. cbn [chars].
  destruct (continues s) eqn:Hs.
  - destruct (chars s) as [|ch rest] eqn:Hcs.
    + apply chars_nil in Hcs as ->. done.
    + cbn [join] in *. by rewrite append_cons, IH.
  - cbn [join]. by rewrite IH.
Qed.

Lemma chars_cons (c : Ascii.ascii) (s : string) :
  ∃ r rest, chars (String c s) = String c r :: rest
            ∧ all_continuation r = true
            ∧ Forall (λ ch, character ch = true) rest.
Proof.
  revert c. induction s as [|b s IH]; intros c.
  - exists "", []. by split_and!.
  - cbn [chars continues]. destruct (IH b) as (r & rest & Hb & Hr & Hrest).
    cbn [chars] in Hb. destruct (is_continuation b) eqn:Hcont.
    + rewrite Hb. exists (String b r), rest. split_and!; [done| |done].
      cbn [all_continuation]. by rewrite Hcont, Hr.
    + rewrite Hb. exists "", (String b r :: rest). split_and!; [done..|].
      constructor; [|done]. cbn [character]. by rewrite Hcont, Hr.
Qed.

(** A string that starts on a character is made of characters. *)
Lemma chars_characters (s : string) :
  continues s = false → Forall (λ ch, character ch = true) (chars s).
Proof.
  destruct s as [|c s]; [by constructor|]. cbn [continues]. intros Hc.
  destruct (chars_cons c s) as (r & rest & -> & Hr & Hrest).
  constructor; [|done]. cbn [character]. by rewrite Hc, Hr.
Qed.

Lemma chars_character (c : Ascii.ascii) (r : string) :
  all_continuation r = true → chars (String c r) = [String c r].
Proof.
  revert c. induction r as [|b r IH]; intros c; [done|].
  cbn [all_continuation]. intros [Hb Hr]%andb_true_iff.
  cbn [chars continues]. rewrite Hb. cbn [chars] in IH. by rewrite (IH b Hr).
Qed.

Lemma chars_append (a b : string) :
  continues b = false → chars (a +:+ b) = chars a ++ chars b.
Proof.
  intros Hb. induction a as [|c a IH]; [done|].
  rewrite append_cons. cbn [chars]. rewrite IH.
  destruct a as [|d a].
  - change ("" +:+ b) with b. rewrite Hb. done.
  - rewrite append_cons. cbn [continues].
    destruct (is_continuation d); [|done].
    destruct (chars (String d a)) as [|ch rest] eqn:Hd; [|done].
    by apply chars_nil in Hd.
Qed.

Lemma continues_join (cs : list string) :
  Forall (λ ch, character ch = true) cs → continues (join cs) = false.
Proof.
  intros [|ch cs' Hch _]; [done|]. cbn [join].
  destruct ch as [|c r]; [done|]. rewrite append_cons. cbn [continues].
  cbn [character] in Hch. apply andb_true_iff in Hch as [Hc _].
  by apply negb_true_iff in Hc.
Qed.

Lemma chars_join (cs : list string) :
  Forall (λ ch, character ch = true) cs → chars (join cs) = cs.
Proof.
  induction 1 as [|ch cs Hch Hcs IH]; [done|]. cbn [join].
  rewrite chars_append by by apply continues_join. rewrite IH.
  destruct ch as [|c r]; [done|].
  cbn [character] in Hch. apply andb_true_iff in Hch as [_ Hr].
  by rewrite chars_character.
Qed.

End Characters.

Section Trimming.

Import TextNodes.

Lemma drop_spaces_Forall (P : string → Prop) (cs : list string) :
  Forall P cs → Forall P (drop_spaces cs).
Proof.
  induction 1 as [|ch cs Hch Hcs IH]; [done|].
  cbn [drop_spaces]. destruct (is_space ch); [done|by constructor].
Qed.

Lemma trim_Forall (P : string → Prop) (cs : list string) :
  Forall P cs → Forall P (trim cs).
Proof.
  intros Hcs. unfold trim.
  by apply Forall_reverse, drop_spaces_Forall, Forall_reverse,
    drop_spaces_Forall.
Qed.

Lemma drop_spaces_head (cs : list string) (ch : string) :
  head (drop_spaces cs) = Some ch → is_space ch = false.
Proof.
  induction cs as [|c cs IH]; [done|]. cbn [drop_spaces].
  destruct (is_space c) eqn:Hc; [done|]. by intros [= <-].
Qed.

Lemma drop_spaces_last (cs : list string) (ch : string) :
  last (drop_spaces cs) = Some ch → last cs = Some ch.
Proof.
  induction cs as [|c cs IH]; [done|]. cbn [drop_spaces].
  destruct (is_space c); [|done]. intros Hlast%IH.
  destruct cs; [done|]. by rewrite last_cons_cons.
Qed.

Lemma drop_spaces_fixed (cs : list string) :
  (∀ ch, head cs = Some ch → is_space ch = false) → drop_spaces cs = cs.
Proof.
  destruct cs as [|c cs]; [done|]. intros Hhead. cbn [drop_spaces].
  by rewrite (Hhead c).
Qed.

Lemma head_reverse (cs : list string) : head (reverse cs) = last cs.
Proof.
  induction cs as [|c cs IH] using rev_ind; [done|].
  by rewrite reverse_snoc, last_snoc.
Qed.

Lemma last_reverse (cs : list string) : last (reverse cs) = head cs.
Proof. by rewrite <- head_reverse, reverse_involutive. Qed.

Lemma trim_trimmed (cs : list string) : trimmed (trim cs).
Proof.
  unfold trim. split; intros ch.
  - rewrite head_reverse. intros Hlast%drop_spaces_last.
    rewrite last_reverse in Hlast. by apply drop_spaces_head in Hlast.
  - rewrite last_reverse. apply drop_spaces_head.
Qed.

Lemma trimmed_trim (cs : list string) : trimmed cs → trim cs = cs.
Proof.
  intros [Hhead Hlast]. unfold trim.
  rewrite (drop_spaces_fixed cs) by done.
  rewrite drop_spaces_fixed; [apply reverse_involutive|].
  intros ch. rewrite head_reverse. apply Hlast.
Qed.

Lemma trimmed_app (ca cb : list string) :
  trimmed ca → trimmed cb → trimmed (ca ++ cb).
Proof.
  intros [Ha1 Ha2] [Hb1 Hb2]. split; intros ch.
  - destruct ca as [|c ca]; [apply Hb1|apply Ha1].
  - destruct cb as [|c cb] using rev_ind.
    + rewrite app_nil_r. apply Ha2.
    + rewrite app_assoc, !last_snoc. intros [= <-]. apply Hb2.
      by rewrite last_snoc.
Qed.

End Trimming.

Section Stripped.

Import TextNodes.

(** What the proofs carry: the string starts on a character and its
    characters have no white space at either end. *)
Let clean (s : string) : Prop := continues s = false ∧ trimmed (chars s).

Lemma clean_stripped (s : string) : clean s → stripped s.
Proof.
  intros [_ Htrim]. split; [|done].
  unfold strip. by rewrite trimmed_trim, join_chars.
Qed.

Lemma clean_strip (s : string) : continues s = false → clean (strip s).
Proof.
  intros Hs. unfold strip.
  assert (Hchars : Forall (λ ch, character ch = true) (trim (chars s)))
    by by apply trim_Forall, chars_characters.
  split; [by apply continues_join|].
  rewrite chars_join by done. apply trim_trimmed.
Qed.

Lemma clean_empty : clean "".
Proof. by split; [|split]. Qed.

Lemma clean_append (a b : string) : clean a → clean b → clean (a +:+ b).
Proof.
  intros [Ha Hta] [Hb Htb]. split.
  - destruct a as [|c a]; [done|]. by rewrite append_cons.
  - rewrite chars_append by done. by apply trimmed_app.
Qed.

(** The text of a node, taken with [strip=True], is a stripped string. *)
Lemma text_of_clean : ∀ n, utf8_text n = true → clean (text_of true n).
Proof.
  fix IH 1. intros [t attrs cs|s|s].
  - cbn [text_of utf8_text]. induction cs as [|m ms IHms]; [intros _; apply clean_empty|].
    intros [Hm Hms]%andb_true_iff.
    apply clean_append; [by apply IH|by apply IHms].
  - cbn [text_of utf8_text]. intros Hs%negb_true_iff. by apply clean_strip.
  - intros _. apply clean_empty.
Qed.

Lemma text_stripped (l : loc) : utf8_loc l → stripped (text l true).
Proof. intros [Hl _]. by apply clean_stripped, text_of_clean. Qed.

Lemma text_or_empty_stripped (n : option loc) :
  (∀ l, n = Some l → utf8_loc l) → stripped (Spec.text_or_empty n).
Proof.
  destruct n as [l|]; simpl.
  - intros Hl. by apply text_stripped, Hl.
  - intros _. apply clean_stripped, clean_empty.
Qed.

End Stripped.

Section Utf8.

Import TextNodes.

Lemma utf8_children (n : node) :
  utf8_text n = true → Forall (λ m, utf8_text m = true) (children n).
Proof.
  destruct n as [t a c|s|s]; [|by constructor..].
  cbn [utf8_text children].
  induction c as [|m ms IH]; [by constructor|].
  intros [Hm Hms]%andb_true_iff. constructor; [done|by apply IH].
Qed.

Lemma utf8_locs_tree : ∀ n rest,
  utf8_text n = true → Forall (λ m, utf8_text m = true) rest →
  Forall utf8_loc (locs_tree n rest).
Proof.
  fix IH 1. intros [t a c|s|s] rest Hn Hrest; cbn [locs_tree];
    (constructor; [done|]); [|constructor..].
  cbn [utf8_text] in Hn. clear Hrest. revert Hn.
  induction c as [|m ms IHms]; [constructor|].
  intros [Hm Hms]%andb_true_iff.
  apply Forall_app. split; [|by apply IHms].
  apply IH; [done|]. clear IHms Hm. revert Hms.
  induction ms as [|k ks IHks]; [constructor|].
  intros [Hk Hks]%andb_true_iff. constructor; [done|by apply IHks].
Qed.

Lemma utf8_locs_forest (ns : list node) :
  Forall (λ m, utf8_text m = true) ns → Forall utf8_loc (locs_forest ns).
Proof.
  induction 1 as [|m ms Hm Hms IH]; [constructor|].
  cbn [locs_forest]. apply Forall_app. split; [by apply utf8_locs_tree|done].
Qed.

Lemma utf8_chain (ns : list node) :
  Forall (λ m, utf8_text m = true) ns → Forall utf8_loc (chain ns).
Proof.
  induction 1 as [|m ms Hm Hms IH]; [constructor|].
  cbn [chain]. by constructor.
Qed.

Lemma utf8_step (found : list loc) (cc : combinator * compound) :
  Forall utf8_loc found → Forall utf8_loc (step found cc).
Proof.
  intros Hfound. apply Forall_forall. intros m Hm.
  unfold step in Hm. apply list_elem_of_bind in Hm as (l & Hm & Hl).
  apply list_elem_of_filter in Hm as [_ Hm].
  rewrite Forall_forall in Hfound. destruct (Hfound l Hl) as [Hhere _].
  apply utf8_children in Hhere.
  destruct cc.1.
  - by eapply Forall_forall in Hm; [|by apply utf8_locs_forest].
  - by eapply Forall_forall in Hm; [|by apply utf8_chain].
Qed.

(** What a selector finds in UTF-8 text is UTF-8 text, with the siblings
    after it. *)
Lemma utf8_css (l : loc) (sel : selector) :
  utf8_loc l → Forall utf8_loc (css l sel).
Proof.
  intros [Hhere Hafter]. unfold css.
  assert (Hfirst : Forall utf8_loc
            (filter (λ m, matches (sel_first sel) m) (subtree l))).
  { apply Forall_forall. intros m [_ Hm]%list_elem_of_filter. revert m Hm.
    apply Forall_forall. by apply utf8_locs_tree. }
  revert Hfirst. generalize (filter (λ m, matches (sel_first sel) m) (subtree l)).
  induction (sel_rest sel) as [|cc ccs IH]; intros found Hfound; [done|].
  cbn [foldl]. by apply IH, utf8_step.
Qed.

Lemma utf8_css_elem (l m : loc) (sel : selector) :
  utf8_loc l → m ∈ css l sel → utf8_loc m.
Proof.
  intros Hl Hm. by eapply Forall_forall in Hm; [|by apply utf8_css].
Qed.

Lemma utf8_css_first (l m : loc) (sel : selector) :
  utf8_loc l → css_first l sel = Some m → utf8_loc m.
Proof.
  intros Hl Hm%head_Some_elem_of. by eapply utf8_css_elem.
Qed.

Lemma utf8_root (html : document) :
  utf8_text html = true → utf8_loc (root html).
Proof. by split; [|constructor]. Qed.

End Utf8.

(* ===================================================================== *)
(** ** What the locator returns *)
(* ===================================================================== *)

Section Located.

Lemma first_list_sound (siblings : list node) (s : loc) :
  Spec.first_list siblings = Some s →
  ∃ skipped,
    siblings = skipped ++ here s :: after s
    ∧ Forall (λ n, ¬ Spec.is_results_list n) skipped
    ∧ Spec.is_results_list (here s).
Proof.
  unfold Spec.first_list.
  induction siblings as [|n siblings IH]; [done|].
  cbn [chain]. rewrite find_cons. cbn [here]. case_decide as Hn.
  - intros [= <-]. by exists [].
  - intros (skipped & -> & Hskip & Hs)%IH.
    exists (n :: skipped). split_and!; [done| |done]. by constructor.
Qed.

Lemma locate_sound (label : string) (html : document) (s : loc) :
  Spec.locate label html = Some s →
  ∃ before h3 later skipped,
    Spec.headings html = before ++ h3 :: later
    ∧ Forall (λ h, ¬ Spec.has_label label h) before
    ∧ Spec.has_label label h3
    ∧ after h3 = skipped ++ here s :: after s
    ∧ Forall (λ n, ¬ Spec.is_results_list n) skipped
    ∧ Spec.is_results_list (here s).
Proof.
  unfold Spec.locate. generalize (Spec.headings html). intros h3s.
  induction h3s as [|h h3s IH]; [done|].
  rewrite find_cons. case_decide as Hh.
  - simpl. intros (skipped & Hafter & Hskip & Hs)%first_list_sound.
    by exists [], h, h3s, skipped.
  - intros (before & h3 & later & skipped & -> & Hb & ?)%IH.
    exists (h :: before), h3, later, skipped. split_and!; try tauto.
    by constructor.
Qed.

End Located.

(** X2.  What the heading search of [finished_races] (label
    ["Results today"]) or of [yesterday_races] (label
    ["Results yesterday"]) returns is an element with tag [ul] and
    [hp2-results] in its class attribute that stands among the siblings
    after the first heading whose text contains the label; no sibling
    between that heading and it is such a list. *)
Theorem located_section_sound (html : document) (label : string) (s : loc) :
  (label = "Results today"
   ∧ finished_races_section (Spec.headings html) = Some s)
  ∨ (label = "Results yesterday"
     ∧ yesterday_races_section (Spec.headings html) = Some s) →
  ∃ before h3 later skipped,
    Spec.headings html = before ++ h3 :: later
    ∧ Forall (λ h, contains label (text h false) ≠ true) before
    ∧ contains label (text h3 false) = true
    ∧ after h3 = skipped ++ here s :: after s
    ∧ Forall (λ n, ¬ Spec.is_results_list n) skipped
    ∧ tag (here s) = "ul"
    ∧ contains "hp2-results"
        (default "" (attributes (here s) !! "class")) = true.
Proof.
  intros Hsection.
  assert (Hloc : Spec.locate label html = Some s).
  { destruct Hsection as [[-> Hs]|[-> Hs]].
    - by rewrite finished_races_section_find in Hs.
    - by rewrite yesterday_races_section_find in Hs. }
  destruct (locate_sound _ _ _ Hloc)
    as (before & h3 & later & skipped & ? & ? & ? & ? & ? & [? ?]).
  by exists before, h3, later, skipped.
Qed.

Lemma located_section_sound_witness :
  ∃ s before h3 later skipped,
    Spec.headings Examples.results_page = before ++ h3 :: later
    ∧ Forall (λ h, contains "Results today" (text h false) ≠ true) before
    ∧ contains "Results today" (text h3 false) = true
    ∧ after h3 = skipped ++ here s :: after s
    ∧ Forall (λ n, ¬ Spec.is_results_list n) skipped
    ∧ tag (here s) = "ul"
    ∧ contains "hp2-results"
        (default "" (attributes (here s) !! "class")) = true.
Proof.
  eexists.
  eapply (located_section_sound Examples.results_page "Results today").
  left. split; [reflexivity|]. vm_compute. reflexivity.
Defined.

(** A list inside a sibling of the heading is not a sibling: it is not
    found. *)
Example nested_list_not_found :
  finished_races EdgeCases.nested_list_page = Return [].
Proof. by vm_compute. Qed.

(* ===================================================================== *)
(** ** Stripped text fields *)
(* ===================================================================== *)

Section StrippedFields.

Import TextNodes.

Lemma utf8_locate (label : string) (html : document) (s : loc) :
  utf8_text html = true → Spec.locate label html = Some s → utf8_loc s.
Proof.
  intros Hhtml Hs.
  destruct (locate_sound _ _ _ Hs)
    as (before & h3 & later & skipped & Hhs & _ & _ & Hafter & _).
  assert (Hh3 : utf8_loc h3).
  { eapply (utf8_css_elem (root html)); [by apply utf8_root|].
    unfold Spec.headings in Hhs. rewrite Hhs. set_solver. }
  destruct Hh3 as [_ Hsib]. rewrite Hafter in Hsib.
  apply Forall_app in Hsib as [_ Hsib]. by apply Forall_cons in Hsib.
Qed.

Lemma live_record_stripped (li : loc) (r : LiveRace.t) :
  utf8_loc li → Spec.live_record li = Some r →
  stripped (LiveRace.name r) ∧ stripped (LiveRace.togo r).
Proof.
  intros Hli Hr. unfold Spec.live_record in Hr.
  destruct (css_first li sel_a) as [a|]; [|done].
  simpl in Hr. injection Hr as <-. simpl.
  split; apply text_or_empty_stripped; intros l Hl;
    (eapply utf8_css_first; [|exact Hl]; done).
Qed.

Lemma next_record_stripped (row : loc) (r : NextRace.t) :
  utf8_loc row → Spec.next_record row = Some r →
  stripped (NextRace.name r) ∧ stripped (NextRace.eta r)
  ∧ stripped (NextRace.category r) ∧ stripped (NextRace.class r).
Proof.
  intros Hrow Hr. unfold Spec.next_record in Hr.
  assert (Hcell : ∀ i c, css row sel_td !! i = Some c → utf8_loc c).
  { intros i c Hc%list_elem_of_lookup_2. by eapply utf8_css_elem. }
  destruct (decide _); [done|].
  destruct (css row sel_td !! 1) as [c1|] eqn:Hc1; [|done].
  destruct (css row sel_td !! 3) as [c3|] eqn:Hc3; [|done]. simpl in Hr.
  destruct (css_first c3 sel_a) as [a|] eqn:Ha; [|done].
  simpl in Hr. injection Hr as <-. simpl.
  split_and!.
  - apply text_stripped. eapply utf8_css_first; [|done]. by eapply Hcell.
  - apply text_stripped. by eapply Hcell.
  - apply text_or_empty_stripped. by apply Hcell.
  - apply text_or_empty_stripped. by apply Hcell.
Qed.

Lemma result_record_stripped (li : loc) (r : Result.t) :
  utf8_loc li → Spec.result_record li = Some r →
  stripped (Result.name r) ∧ stripped (Result.category r).
Proof.
  intros Hli Hr. unfold Spec.result_record in Hr.
  destruct (css_first li sel_race_link) as [a|] eqn:Ha; [|done].
  simpl in Hr. injection Hr as <-. simpl.
  assert (utf8_loc a) by by eapply utf8_css_first.
  split; apply text_or_empty_stripped; intros l Hl;
    (eapply utf8_css_first; [|exact Hl]; done).
Qed.

Lemma results_by_label_stripped (label : string) (html : document) :
  utf8_text html = true →
  Forall (λ r, stripped (Result.name r) ∧ stripped (Result.category r))
    (omap Spec.result_record
       (from_option (λ s, css s sel_li_race) [] (Spec.locate label html))).
Proof.
  intros Hhtml. apply Forall_forall. intros r (li & Hli & Hr)%list_elem_of_omap.
  destruct (Spec.locate label html) as [section|] eqn:Hsection;
    simpl in Hli; [|by apply elem_of_nil in Hli].
  eapply result_record_stripped; [|done].
  eapply utf8_css_elem; [|done]. by eapply utf8_locate.
Qed.

End StrippedFields.

(** X1.  On a document whose text nodes start on a character (none starts
    with a continuation byte of UTF-8, as in the text the parser decodes),
    every field the methods read with [text(strip=True)] is a stripped
    string: the [name] and [togo] of a live race, the [name], [eta],
    [category] and [class] of a race next to finish, and the [name] and
    [category] of a result.  Stripped means that [strip] leaves the field
    as it is and that neither its first nor its last character is white
    space, where white space is what Python's [str.isspace] accepts: the
    ASCII characters 9 to 13 and 28 to 32 and the Unicode spaces such as
    U+00A0 and U+2003. *)
Theorem text_fields_stripped (html : document) :
  TextNodes.utf8_text html = true →
  (∃ rs, live_races html = Return rs
         ∧ Forall (λ r, TextNodes.stripped (LiveRace.name r)
                        ∧ TextNodes.stripped (LiveRace.togo r)) rs)
  ∧ (∃ rs, next_to_finish html = Return rs
           ∧ Forall (λ r, TextNodes.stripped (NextRace.name r)
                          ∧ TextNodes.stripped (NextRace.eta r)
                          ∧ TextNodes.stripped (NextRace.category r)
                          ∧ TextNodes.stripped (NextRace.class r)) rs)
  ∧ (∃ rs, finished_races html = Return rs
           ∧ Forall (λ r, TextNodes.stripped (Result.name r)
                          ∧ TextNodes.stripped (Result.category r)) rs)
  ∧ (∃ rs, yesterday_races html = Return rs
           ∧ Forall (λ r, TextNodes.stripped (Result.name r)
                          ∧ TextNodes.stripped (Result.category r)) rs).
Proof.
  intros Hhtml. pose proof (utf8_root html Hhtml) as Hroot. split_and!.
  - eexists. split; [apply live_races_records|]. apply Forall_forall.
    intros r (li & Hli & Hr)%list_elem_of_omap.
    eapply live_record_stripped; [|done]. by eapply utf8_css_elem.
  - eexists. split; [apply next_to_finish_records|]. apply Forall_forall.
    intros r (row & Hrow & Hr)%list_elem_of_omap.
    eapply next_record_stripped; [|done].
    unfold Spec.next_rows in Hrow.
    destruct (css_first (root html) sel_next_table) as [table|] eqn:Htable;
      simpl in Hrow; [|by apply elem_of_nil in Hrow].
    eapply utf8_css_elem; [|done]. by eapply utf8_css_first.
  - eexists. split; [apply finished_races_results|].
    by apply results_by_label_stripped.
  - eexists. split; [apply yesterday_races_results|].
    by apply results_by_label_stripped.
Qed.

Lemma text_fields_stripped_witness :
  TextNodes.utf8_text EdgeCases.nbsp_page = true
  ∧ ∃ rs, live_races EdgeCases.nbsp_page = Return rs
          ∧ Forall (λ r, TextNodes.stripped (LiveRace.name r)
                         ∧ TextNodes.stripped (LiveRace.togo r)) rs.
Proof.
  split; [reflexivity|].
  apply (text_fields_stripped EdgeCases.nbsp_page). reflexivity.
Defined.

(** The no-break spaces and the em space around a title are stripped, the
    accented letter inside it is kept. *)
Example nbsp_page_live_races :
  live_races EdgeCases.nbsp_page
  = Return [LiveRace.Make "race/q/2026" "Gran Premio Città" "live" ""].
Proof. by vm_compute. Qed.

(** The [url] is the raw attribute, and the text nodes of a name are
    stripped one by one before they are joined. *)
Example padded_page_live_races :
  live_races EdgeCases.padded_page
  = Return [LiveRace.Make " race/p/2026 " "TourP" "live" "3 km"].
Proof. by vm_compute. Qed.


(* ===================================================================== *)
(** ** Records and items, one to one *)
(* ===================================================================== *)

Section Counting.

Context {A R : Type}.

(** The records of a loop are, in order, those of the items that have
    one. *)
Lemma omap_filter_Forall2 (f : A → option R) (xs : list A) :
  Forall2 (λ x r, f x = Some r) (filter (λ x, is_Some (f x)) xs) (omap f xs).
Proof.
  induction xs as [|x xs IH]; [constructor|].
  cbn [omap list_omap]. rewrite filter_cons.
  destruct (f x) as [r|] eqn:Hx.
  - rewrite decide_True by eauto. by constructor.
  - rewrite decide_False by (by intros [? ?]). done.
Qed.

Lemma omap_filter_Forall2_with (f : A → option R) (P : A → Prop)
      `{∀ x, Decision (P x)} (Q : A → R → Prop) (xs : list A) :
  (∀ x, P x ↔ is_Some (f x)) →
  (∀ x r, f x = Some r → Q x r) →
  Forall2 Q (filter P xs) (omap f xs).
Proof.
  intros HP HQ.
  rewrite (list_filter_iff P (λ x, is_Some (f x))) by done.
  eapply Forall2_impl; [apply omap_filter_Forall2|]. apply HQ.
Qed.

End Counting.

(** X3.  The records a method returns stand one to one, and in the same
    order, with the items that have their anchor, and each record has the
    [href] of the anchor of its item as [url]: the [li.live] items with an
    [a] for [live_races], the rows with an [a] in the cell of index 3 for
    [next_to_finish], the [li.race] items of the located list with a race
    link for [finished_races] and [yesterday_races].  So no method returns
    more records than it has items. *)
Theorem records_follow_items (html : document) :
  (∃ rs, live_races html = Return rs
         ∧ Forall2 (λ li r, ∃ a, css_first li sel_a = Some a
                                 ∧ LiveRace.url r = Spec.href_of a)
                   (filter (λ li, is_Some (css_first li sel_a))
                           (css (root html) sel_live))
                   rs
         ∧ (length rs ≤ length (css (root html) sel_live))%nat)
  ∧ (∃ rs, next_to_finish html = Return rs
           ∧ Forall2 (λ row r, ∃ c3 a, css row sel_td !! 3 = Some c3
                                       ∧ css_first c3 sel_a = Some a
                                       ∧ NextRace.url r = Spec.href_of a)
                     (filter (λ row, is_Some (css row sel_td !! 3
                                              ≫= λ c3, css_first c3 sel_a))
                             (Spec.next_rows html))
                     rs
           ∧ (length rs ≤ length (Spec.next_rows html))%nat)
  ∧ (∀ section,
       finished_races_section (Spec.headings html) = Some section →
       ∃ rs, finished_races html = Return rs
             ∧ Forall2 (λ li r, ∃ a, css_first li sel_race_link = Some a
                                     ∧ Result.url r = Spec.href_of a)
                       (filter (λ li, is_Some (css_first li sel_race_link))
                               (css section sel_li_race))
                       rs
             ∧ (length rs ≤ length (css section sel_li_race))%nat)
  ∧ (∀ section,
       yesterday_races_section (Spec.headings html) = Some section →
       ∃ rs, yesterday_races html = Return rs
             ∧ Forall2 (λ li r, ∃ a, css_first li sel_race_link = Some a
                                     ∧ Result.url r = Spec.href_of a)
                       (filter (λ li, is_Some (css_first li sel_race_link))
                               (css section sel_li_race))
                       rs
             ∧ (length rs ≤ length (css section sel_li_race))%nat).
Proof.
  assert (Hlen : ∀ (A R : Type) (Q : A → R → Prop) (P : A → Prop)
                   `{∀ x, Decision (P x)} xs rs,
            Forall2 Q (filter P xs) rs → (length rs ≤ length xs)%nat).
  { intros A R Q P ? xs rs HF. rewrite <- (Forall2_length _ _ _ HF).
    apply length_filter. }
  assert (Hres : ∀ items,
    Forall2 (λ li r, ∃ a, css_first li sel_race_link = Some a
                          ∧ Result.url r = Spec.href_of a)
            (filter (λ li, is_Some (css_first li sel_race_link)) items)
            (omap Spec.result_record items)).
  { intros items. apply omap_filter_Forall2_with.
    - intros li. unfold Spec.result_record.
      destruct (css_first li sel_race_link); simpl; split; intros [? ?];
        eauto; done.
    - intros li r Hr.
      destruct (result_record_url _ _ Hr) as (a & ? & ? & _). by exists a. }
  split_and!.
  - eexists. split; [apply live_races_records|].
    assert (HF : Forall2 (λ li r, ∃ a, css_first li sel_a = Some a
                                      ∧ LiveRace.url r = Spec.href_of a)
                   (filter (λ li, is_Some (css_first li sel_a))
                           (css (root html) sel_live))
                   (omap Spec.live_record (css (root html) sel_live))).
    { apply omap_filter_Forall2_with.
      - intros li. unfold Spec.live_record.
        destruct (css_first li sel_a); simpl; split; intros [? ?]; eauto; done.
      - intros li r. unfold Spec.live_record.
        destruct (css_first li sel_a) as [a|]; [|done]. simpl.
        intros [= <-]. by exists a. }
    split; [done|]. by eapply Hlen.
  - eexists. split; [apply next_to_finish_records|].
    assert (HF : Forall2 (λ row r, ∃ c3 a, css row sel_td !! 3 = Some c3
                                          ∧ css_first c3 sel_a = Some a
                                          ∧ NextRace.url r = Spec.href_of a)
                   (filter (λ row, is_Some (css row sel_td !! 3
                                            ≫= λ c3, css_first c3 sel_a))
                           (Spec.next_rows html))
                   (omap Spec.next_record (Spec.next_rows html))).
    { apply omap_filter_Forall2_with.
      - intros row. unfold Spec.next_record.
        destruct (css row sel_td !! 3) as [c3|] eqn:Hc3; simpl.
        + apply lookup_lt_Some in Hc3 as Hlen3.
          rewrite decide_False by lia.
          destruct (lookup_lt_is_Some_2 (css row sel_td) 1) as [c1 ->]; [lia|].
          simpl. destruct (css_first c3 sel_a); simpl; split; intros [? ?];
            eauto; done.
        + split; [by intros [? ?]|].
          destruct (decide _); [by intros [? ?]|].
          destruct (css row sel_td !! 1); simpl; by intros [? ?].
      - intros row r. unfold Spec.next_record.
        destruct (decide _); [done|].
        destruct (css row sel_td !! 1) as [c1|]; [|done].
        destruct (css row sel_td !! 3) as [c3|]; [|done]. simpl.
        destruct (css_first c3 sel_a) as [a|] eqn:Ha; [|done]. simpl.
        intros [= <-]. by exists c3, a. }
    split; [done|]. by eapply Hlen.
  - intros section Hsection. eexists.
    split; [apply finished_races_results|].
    rewrite finished_races_section_find in Hsection.
    unfold Spec.locate. rewrite Hsection. simpl.
    split; [apply Hres|]. eapply Hlen, Hres.
  - intros section Hsection. eexists.
    split; [apply yesterday_races_results|].
    rewrite yesterday_races_section_find in Hsection.
    unfold Spec.locate. rewrite Hsection. simpl.
    split; [apply Hres|]. eapply Hlen, Hres.
Qed.

(* ===================================================================== *)
(** ** The calendar: containers, round trips, failures *)
(* ===================================================================== *)

(** X4.  [race_urls_for_date] looks for anchors only inside the first
    [div.page-content] of the first [div.content] of the response: when the
    response has no [div.content], or the first one has no
    [div.page-content] in it, the result is the empty list, whatever race
    links the rest of the page holds. *)
Theorem race_urls_need_containers (html : document) :
  (css_first (root html) sel_content
   ≫= λ content_div, css_first content_div sel_page_content) = None →
  race_urls_of html = Return []
  ∧ ∀ BASE_URL session_get date body,
      session_get (BASE_URL +:+ "races.php?p=uci&s=today&date=" +:+ date
                   +:+ "&nation=&cat=&filter=Filter") = Return body →
      race_urls_for_date BASE_URL session_get (λ _, html) date = Return [].
Proof.
  intros Hnone.
  assert (Hempty : race_urls_of html = Return []).
  { unfold race_urls_of.
    destruct (css_first (root html) sel_content) as [content|]; simpl in *.
    - rewrite Hnone. simpl. by rewrite elements_empty.
    - by rewrite elements_empty. }
  split; [done|].
  intros BASE_URL session_get date body Hget.
  unfold race_urls_for_date. by rewrite Hget.
Qed.

Lemma race_urls_need_containers_witness :
  race_urls_of EdgeCases.two_contents_page = Return []
  ∧ ∀ BASE_URL session_get date body,
      session_get (BASE_URL +:+ "races.php?p=uci&s=today&date=" +:+ date
                   +:+ "&nation=&cat=&filter=Filter") = Return body →
      race_urls_for_date BASE_URL session_get
        (λ _, EdgeCases.two_contents_page) date = Return [].
Proof.
  apply (race_urls_need_containers EdgeCases.two_contents_page).
  vm_compute. reflexivity.
Defined.

Section Recollect.

Lemma race_prefix_admitted (u : string) :
  startswith u "race/" = true →
  Spec.admitted u = true ∧ Spec.normalise u = u.
Proof.
  intros Hu. unfold Spec.admitted, Spec.normalise.
  assert (Hs : startswith u "/race/" = false).
  { destruct u as [|c u]; [done|]. cbn [startswith] in *.
    apply andb_true_iff in Hu as [Hc _]. apply Ascii.eqb_eq in Hc as <-. done. }
  rewrite Hs, Hu. by rewrite orb_true_r.
Qed.

Lemma slash_race_admitted (u : string) :
  startswith u "race/" = true →
  Spec.admitted ("/" +:+ u) = true ∧ Spec.normalise ("/" +:+ u) = u.
Proof.
  intros Hu. unfold Spec.admitted, Spec.normalise.
  assert (Hs : startswith ("/" +:+ u) "/race/" = true).
  { rewrite append_cons. change ("" +:+ u) with u. cbn [startswith].
    by rewrite Ascii.eqb_refl. }
  rewrite Hs. split; [done|].
  rewrite append_cons. by change ("" +:+ u) with u.
Qed.

(** What the collector returns is determined by the set of its URLs. *)
Lemma sorted_elements_fixed (X : gset string) :
  sorted (elements (list_to_set (sorted (elements X)) : gset string))
  = sorted (elements X).
Proof.
  do 2 f_equal. apply set_eq. intros u.
  by rewrite elem_of_list_to_set, elem_of_sorted_elements.
Qed.

End Recollect.

(** X5.  Collecting is stable under collecting again: when the hrefs of a
    second response are, as a set, the URLs [race_urls_for_date] returned
    for a first one, or those URLs with a slash put in front, the second
    result is the first, whatever the order and the number of times the
    hrefs occur. *)
Theorem race_urls_recollected (html html' : document) (urls : list string) :
  race_urls_of html = Return urls →
  (list_to_set (omap (λ a, attributes (here a) !! "href")
                     (Spec.calendar_anchors html')) : gset string)
  = list_to_set urls
  ∨ (list_to_set (omap (λ a, attributes (here a) !! "href")
                       (Spec.calendar_anchors html')) : gset string)
    = list_to_set ((λ u, "/" +:+ u) <$> urls) →
  race_urls_of html' = Return urls.
Proof.
  intros Hurls Hhrefs.
  rewrite race_urls_of_set in Hurls. injection Hurls as Hurls.
  assert (Hrace : ∀ u, u ∈ urls → startswith u "race/" = true).
  { intros u Hu. rewrite <- Hurls in Hu.
    apply elem_of_sorted_elements, elem_of_list_to_set in Hu.
    by destruct (calendar_urls_race _ _ Hu) as (? & _). }
  rewrite race_urls_of_set. f_equal.
  assert (Hsame : (list_to_set (Spec.calendar_urls html') : gset string)
                  = list_to_set urls).
  { apply set_eq. intros u. rewrite !elem_of_list_to_set.
    unfold Spec.calendar_urls, Spec.urls_of_anchors.
    rewrite list_elem_of_fmap. setoid_rewrite list_elem_of_filter.
    destruct Hhrefs as [Hset|Hset].
    - assert (Hin : ∀ h, h ∈ omap (λ a, attributes (here a) !! "href")
                               (Spec.calendar_anchors html') ↔ h ∈ urls).
      { intros h. by rewrite <- !(elem_of_list_to_set (C:=gset string)), Hset. }
      split.
      + intros (h & -> & _ & Hh%Hin).
        by destruct (race_prefix_admitted h (Hrace h Hh)) as [_ ->].
      + intros Hu. exists u.
        destruct (race_prefix_admitted u (Hrace u Hu)) as [Hadm Hnorm].
        split_and!; [done|done|by apply Hin].
    - assert (Hin : ∀ h, h ∈ omap (λ a, attributes (here a) !! "href")
                               (Spec.calendar_anchors html')
                         ↔ ∃ u, h = "/" +:+ u ∧ u ∈ urls).
      { intros h.
        rewrite <- (elem_of_list_to_set (C:=gset string)), Hset.
        by rewrite elem_of_list_to_set, list_elem_of_fmap. }
      split.
      + intros (h & -> & _ & (u' & -> & Hu')%Hin).
        by destruct (slash_race_admitted u' (Hrace u' Hu')) as [_ ->].
      + intros Hu.
        destruct (slash_race_admitted u (Hrace u Hu)) as [Hadm Hnorm].
        exists ("/" +:+ u). split_and!; [done|done|].
        apply Hin. by exists u. }
  rewrite Hsame, <- Hurls. apply sorted_elements_fixed.
Qed.

Lemma race_urls_recollected_witness :
  race_urls_of EdgeCases.recollected_page
  = Return ["race/a/2026"; "race/b/2026"].
Proof.
  apply (race_urls_recollected Examples.calendar_page).
  - vm_compute. reflexivity.
  - left. vm_compute. reflexivity.
Defined.

Example slashed_page_recollected :
  race_urls_of EdgeCases.slashed_page = Return ["race/a/2026"; "race/b/2026"].
Proof. by vm_compute. Qed.

(** X6.  [race_urls_for_date] fails exactly when the request fails, with
    the exception the session raised, and makes the one request for the
    calendar of the date: when the session answers, the method returns a
    list, whatever the response holds. *)
Theorem race_urls_for_date_outcome (BASE_URL : string)
        (session_get : string → exc string) (HTMLParser : string → document)
        (date : string) :
  match session_get (BASE_URL +:+ "races.php?p=uci&s=today&date=" +:+ date
                     +:+ "&nation=&cat=&filter=Filter") with
  | Raise e =>
      race_urls_for_date BASE_URL session_get HTMLParser date = Raise e
  | Return body =>
      ∃ urls,
        race_urls_for_date BASE_URL session_get HTMLParser date = Return urls
        ∧ race_urls_of (HTMLParser body) = Return urls
  end.
Proof.
  unfold race_urls_for_date.
  destruct (session_get _) as [e|body]; simpl; [done|].
  destruct (race_urls_of_elements (HTMLParser body)) as (urls & Hurls & _).
  by exists urls.
Qed.

(* ===================================================================== *)
(** ** The test script *)
(* ===================================================================== *)

Section Printing.

Import Harness.

Lemma len_append (a b : string) : len (a +:+ b) = (len a + len b)%nat.
Proof.
  induction a as [|c a IH]; [done|]. rewrite append_cons. cbn [len].
  rewrite IH. by destruct (is_continuation c).
Qed.

(** [s[:n]] has [n] characters, or all of [s]. *)
Lemma len_take_chars (n : nat) (s : string) :
  len (take_chars n s) = (n `min` len s)%nat.
Proof.
  revert n. induction s as [|c s IH]; intros n; [by destruct n|].
  cbn [take_chars len]. destruct (is_continuation c) eqn:Hc.
  - cbn [len]. by rewrite Hc, IH.
  - destruct n as [|n]; [done|]. cbn [len]. rewrite Hc, IH. done.
Qed.

(** [s[:n]] is a prefix of [s]. *)
Lemma take_chars_prefix (n : nat) (s : string) :
  ∃ rest, s = take_chars n s +:+ rest.
Proof.
  revert n. induction s as [|c s IH]; intros n; [by exists ""|].
  cbn [take_chars]. destruct (is_continuation c).
  - destruct (IH n) as [rest Hrest]. exists rest.
    rewrite append_cons. by rewrite <- Hrest.
  - destruct n as [|n]; [by exists (String c s)|].
    destruct (IH n) as [rest Hrest]. exists rest.
    rewrite append_cons. by rewrite <- Hrest.
Qed.

End Printing.

(** X7.  [print_data] prints the key and then the value: as it is when its
    text has at most [max_length] characters, and otherwise cut to its
    first [max_length] characters with ["..."] put after them.  With
    [max_length] from 0 up the value shown never has more than
    [max_length + 3] characters. *)
Theorem print_data_truncates (key value_str : string) (max_length : Z) :
  (0 ≤ max_length)%Z →
  ∃ shown,
    Harness.print_data key value_str max_length
    = "  " +:+ Harness.Colors.BLUE +:+ key +:+ ":" +:+ Harness.Colors.ENDC
      +:+ " " +:+ shown
    ∧ (Z.of_nat (Harness.len shown) ≤ max_length + 3)%Z
    ∧ ((Z.of_nat (Harness.len value_str) ≤ max_length)%Z →
       shown = value_str)
    ∧ ((max_length < Z.of_nat (Harness.len value_str))%Z →
       ∃ rest,
         shown = Harness.take_chars (Z.to_nat max_length) value_str +:+ "..."
         ∧ value_str
           = Harness.take_chars (Z.to_nat max_length) value_str +:+ rest
         ∧ Harness.len (Harness.take_chars (Z.to_nat max_length) value_str)
           = Z.to_nat max_length
         ∧ Z.of_nat (Harness.len shown) = (max_length + 3)%Z).
Proof.
  intros Hmax. exists (Harness.print_data_value value_str max_length).
  split; [done|]. unfold Harness.print_data_value, Harness.slice_to.
  rewrite (bool_decide_eq_false_2 (max_length < 0)%Z) by lia.
  case_bool_decide as Hlen.
  - assert (Htake :
      Harness.len (Harness.take_chars (Z.to_nat max_length) value_str)
      = Z.to_nat max_length).
    { rewrite len_take_chars. lia. }
    assert (Hshown :
      Z.of_nat (Harness.len
                  (Harness.take_chars (Z.to_nat max_length) value_str
                   +:+ "..."))
      = (max_length + 3)%Z).
    { rewrite len_append, Htake.
      change (Harness.len "...") with 3%nat. lia. }
    split_and!; [lia|lia|].
    intros _. destruct (take_chars_prefix (Z.to_nat max_length) value_str)
      as [rest Hrest].
    by exists rest.
  - split_and!; [lia|done|lia].
Qed.

Lemma print_data_truncates_witness :
  ∃ shown,
    Harness.print_data "race_url" "race/tour-de-france/2026" 9
    = "  " +:+ Harness.Colors.BLUE +:+ "race_url" +:+ ":"
      +:+ Harness.Colors.ENDC +:+ " " +:+ shown
    ∧ (Z.of_nat (Harness.len shown) ≤ 9 + 3)%Z
    ∧ ((Z.of_nat (Harness.len "race/tour-de-france/2026") ≤ 9)%Z →
       shown = "race/tour-de-france/2026")
    ∧ ((9 < Z.of_nat (Harness.len "race/tour-de-france/2026"))%Z →
       ∃ rest,
         shown = Harness.take_chars (Z.to_nat 9) "race/tour-de-france/2026"
                 +:+ "..."
         ∧ "race/tour-de-france/2026"
           = Harness.take_chars (Z.to_nat 9) "race/tour-de-france/2026"
             +:+ rest
         ∧ Harness.len
             (Harness.take_chars (Z.to_nat 9) "race/tour-de-france/2026")
           = Z.to_nat 9
         ∧ Z.of_nat (Harness.len shown) = (9 + 3)%Z).
Proof.
  apply (print_data_truncates "race_url" "race/tour-de-france/2026" 9). lia.
Defined.

(** Characters are counted, not bytes: a value of three letters outside
    the ASCII range is shown whole at [max_length] 3. *)
Example print_data_examples :
  Harness.print_data_value "race/tour-de-france/2026" 9 = "race/tour..."
  ∧ Harness.print_data_value "race/a/2026" 100 = "race/a/2026"
  ∧ Harness.print_data_value "abcdef" (-2) = "abcd..."
  ∧ Harness.print_data_value "ñññ" 3 = "ñññ"
  ∧ Harness.print_data_value "ñandú y más" 5 = "ñandú..."
  ∧ String.length "ñññ" = 6%nat
  ∧ Harness.len "ñññ" = 3%nat.
Proof. by vm_compute. Qed.

Section Summary.

Context {Parsed Seconds : Type}.
Implicit Types (results : list (Harness.TestResult Parsed Seconds)).

Lemma sum_ones {A : Type} (xs : list A) (start : Z) :
  foldl Z.add start ((λ _, 1%Z) <$> xs) = (start + Z.of_nat (length xs))%Z.
Proof.
  revert start. induction xs as [|x xs IH]; intros start; simpl; [lia|].
  rewrite IH. lia.
Qed.

Lemma successful_count results :
  Harness.successful results
  = Z.of_nat (length (filter (λ r, Harness.success r = true) results)).
Proof. unfold Harness.successful, Harness.sum. by rewrite sum_ones. Qed.

Lemma failed_zero results :
  Harness.failed results = 0%Z
  ↔ Forall (λ r, Harness.success r = true) results.
Proof.
  unfold Harness.failed. rewrite successful_count.
  induction results as [|r results IH]; [by split; [constructor|]|].
  rewrite filter_cons, Forall_cons.
  pose proof (length_filter (λ r, Harness.success r = true) results) as Hle.
  case_decide as Hr; simpl in *.
  - rewrite <- IH. split; [intros ?; split; [done|lia]|intros [_ ?]; lia].
  - split; [lia|]. by intros [? _].
Qed.

Lemma exit_code_zero results :
  Harness.exit_code results = 0%Z
  ↔ Forall (λ r, Harness.success r = true) results.
Proof.
  pose proof (failed_zero results) as Hzero.
  assert (Hf : (0 ≤ Harness.failed results)%Z).
  { unfold Harness.failed. rewrite successful_count.
    pose proof (length_filter (λ r, Harness.success r = true) results). lia. }
  unfold Harness.exit_code. case_bool_decide as Hpos.
  - split; [done|]. intros Hall%Hzero. lia.
  - split; [|done]. intros _. apply Hzero. lia.
Qed.

End Summary.

(** X8.  In the summary of [main] the successful and the failed results
    add up to all results and neither count is negative; the exit code is
    0 when every result has [success] set and 1 when some result has
    not. *)
Theorem summary_exit_code {Parsed Seconds : Type}
        (results : list (Harness.TestResult Parsed Seconds)) :
  (Harness.successful results + Harness.failed results
   = Z.of_nat (length results))%Z
  ∧ (0 ≤ Harness.successful results)%Z
  ∧ (0 ≤ Harness.failed results)%Z
  ∧ (Harness.exit_code results = 0%Z
     ↔ Forall (λ r, Harness.success r = true) results)
  ∧ (Harness.exit_code results = 1%Z
     ↔ Exists (λ r, Harness.success r = false) results).
Proof.
  pose proof (failed_zero results) as Hzero.
  assert (Hs : (0 ≤ Harness.successful results ≤ Z.of_nat (length results))%Z).
  { rewrite successful_count.
    pose proof (length_filter (λ r, Harness.success r = true) results). lia. }
  assert (Hf : (Harness.failed results
                = Z.of_nat (length results) - Harness.successful results)%Z)
    by done.
  split_and!; [lia|lia|lia|apply exit_code_zero|].
  - unfold Harness.exit_code. rewrite Exists_exists.
    case_bool_decide as Hpos.
    + split; [|done]. intros _.
      destruct (decide (Forall (λ r, Harness.success r = true) results))
        as [Hall%Hzero|Hsome]; [lia|].
      apply not_Forall_Exists in Hsome; [|apply _].
      apply Exists_exists in Hsome as (r & Hr & Hfalse). exists r.
      split; [done|]. by apply not_true_is_false.
    + split; [done|]. intros (r & Hr & Hfalse).
      assert (Hall : Forall (λ r, Harness.success r = true) results)
        by (apply Hzero; lia).
      rewrite Forall_forall in Hall. specialize (Hall r Hr). congruence.
Qed.

(** X9.  [main] exits with 0 exactly when the test of the homepage
    succeeded, [TodayRaces()] was built and the calendar request for
    [2026-02-06] was answered.  A failure of that request is caught: it
    makes the exit code 1 and is recorded as the [error] of the second
    result, with [success] unset and no data. *)
Theorem main_exit_code {Parsed Seconds : Type} (str : exn → string)
        (TodayRaces_new : exc unit) (BASE_URL : string)
        (session_get : string → exc string) (HTMLParser : string → document)
        (first : Harness.TestResult Parsed Seconds) :
  let request :=
    BASE_URL
    +:+ "races.php?p=uci&s=today&date=2026-02-06&nation=&cat=&filter=Filter" in
  let run := Harness.main str TodayRaces_new BASE_URL session_get HTMLParser in
  let dated :=
    Harness.dated_result (Parsed:=Parsed) (Seconds:=Seconds)
      str TodayRaces_new BASE_URL session_get HTMLParser in
  (run first = 0%Z
   ↔ Harness.success first = true
     ∧ TodayRaces_new = Return ()
     ∧ ∃ body, session_get request = Return body)
  ∧ (run first = 0%Z ∨ run first = 1%Z)
  ∧ (∀ e,
       TodayRaces_new = Return () → session_get request = Raise e →
       run first = 1%Z
       ∧ Harness.success dated = false
       ∧ Harness.error dated = Some (str e)
       ∧ Harness.result_data dated = Harness.NoData)
  ∧ (∀ body,
       TodayRaces_new = Return () → session_get request = Return body →
       ∃ urls,
         race_urls_of (HTMLParser body) = Return urls
         ∧ Harness.success dated = true
         ∧ Harness.result_data dated = Harness.Urls urls).
Proof.
  intros request run dated.
  assert (Hquery :
    Harness.dated_query TodayRaces_new BASE_URL session_get HTMLParser
    = match TodayRaces_new with
      | Raise e => Raise e
      | Return _ =>
          match session_get request with
          | Raise e => Raise e
          | Return body => race_urls_of (HTMLParser body)
          end
      end).
  { unfold Harness.dated_query, race_urls_for_date.
    destruct TodayRaces_new as [e|[]]; [done|]. simpl.
    change (BASE_URL +:+ "races.php?p=uci&s=today&date=" +:+ Harness.test_date
            +:+ "&nation=&cat=&filter=Filter") with request.
    by destruct (session_get request). }
  assert (Hdated : Harness.success dated = true
                   ↔ TodayRaces_new = Return ()
                     ∧ ∃ body, session_get request = Return body).
  { unfold dated, Harness.dated_result. rewrite Hquery.
    destruct TodayRaces_new as [e|[]]; [by split; [|intros [? _]]|].
    destruct (session_get request) as [e|body]; simpl.
    - split; [done|]. by intros [_ [? ?]].
    - destruct (race_urls_of_elements (HTMLParser body)) as (urls & -> & _).
      simpl. split; [|done]. intros _. split; [done|]. by exists body. }
  assert (Hrun : run first = 0%Z
                 ↔ Harness.success first = true ∧ Harness.success dated = true).
  { unfold run, Harness.main, Harness.main_results.
    pose proof (exit_code_zero (Parsed:=Parsed) (Seconds:=Seconds)
                  ([] ++ [first] ++ [dated])) as Hzero.
    simpl in Hzero. fold dated. simpl. rewrite Hzero.
    rewrite !Forall_cons, Forall_nil. tauto. }
  split_and!.
  - rewrite Hrun, Hdated. tauto.
  - unfold run, Harness.main, Harness.exit_code. case_bool_decide; auto.
  - intros e Hnew Hget.
    assert (Hd : Harness.success dated = false
                 ∧ Harness.error dated = Some (str e)
                 ∧ Harness.result_data dated = Harness.NoData).
    { unfold dated, Harness.dated_result. by rewrite Hquery, Hnew, Hget. }
    split; [|done].
    assert (Hnot : run first ≠ 0%Z).
    { rewrite Hrun. intros [_ Hs]. destruct Hd as [Hd _]. congruence. }
    unfold run, Harness.main, Harness.exit_code in *. by case_bool_decide.
  - intros body Hnew Hget.
    destruct (race_urls_of_elements (HTMLParser body)) as (urls & Hurls & _).
    exists urls. split; [done|].
    unfold dated, Harness.dated_result. by rewrite Hquery, Hnew, Hget, Hurls.
Qed.

Example main_session_down :
  Harness.main EdgeCases.str_exn (Return ()) "https://www.procyclingstats.com/"
    Examples.session_down (λ _, Examples.calendar_page) EdgeCases.a_result
  = 1%Z
  ∧ Harness.main EdgeCases.str_exn (Return ()) "https://www.procyclingstats.com/"
      (Examples.session_ok "<html>") (λ _, Examples.calendar_page)
      EdgeCases.a_result
    = 0%Z.
Proof. by vm_compute. Qed.

(* ===================================================================== *)
(** ** The string builtins against their meaning *)
(* ===================================================================== *)

Section Builtins.

(** [s.startswith(p)] holds when [s] is [p] followed by something. *)
Lemma startswith_spec (s p : string) :
  startswith s p = true ↔ ∃ rest, s = p +:+ rest.
Proof.
  revert s. induction p as [|a p IH]; intros s.
  - split; [intros _; by exists s|by destruct s].
  - destruct s as [|b s]; cbn [startswith].
    + split; [done|]. by intros [rest ?].
    + rewrite andb_true_iff, IH. split.
      * intros [->%Ascii.eqb_eq [rest ->]]. by exists rest.
      * intros [rest Hrest]. rewrite append_cons in Hrest.
        injection Hrest as -> ->. split; [apply Ascii.eqb_refl|by exists rest].
Qed.

(** [sub in s] holds when [sub] occurs somewhere in [s]. *)
Lemma contains_spec (sub s : string) :
  contains sub s = true ↔ ∃ before rest, s = before +:+ sub +:+ rest.
Proof.
  induction s as [|c s IH].
  - cbn [contains]. rewrite orb_false_r, startswith_spec. split.
    + intros [rest ->]. by exists "", rest.
    + intros (before & rest & Hs). destruct before; [by exists rest|done].
  - cbn [contains]. rewrite orb_true_iff, startswith_spec, IH. split.
    + intros [[rest ->]|(before & rest & ->)].
      * by exists "", rest.
      * by exists (String c before), rest.
    + intros (before & rest & Hs). destruct before as [|b before].
      * left. by exists rest.
      * right. rewrite append_cons in Hs. injection Hs as -> ->.
        by exists before, rest.
Qed.

End Builtins.
